(** * Forensic alpha: a shallow embedding of [utils/forensic_alpha.py]

    The program blends four yearly forensic-accounting scores (Beneish,
    Sloan, Piotroski, Altman) into one composite, [forensic_alpha], with an
    expanding-window z-score per metric, a polarity correction, a weighted
    sum renormalised over the metrics that are present, a rounding to four
    decimals and a qualitative label.

    Numbers.  The program computes on pandas columns of binary64 floats in
    which NaN marks a missing value.  The file has the computation twice.

    In the first embedding a column entry is a [cell], an [option R]: [None]
    is NaN and [Some x] a number, and the arithmetic on numbers is the exact
    arithmetic of the reals.  It carries what does not depend on rounding:
    which rows are kept and in which order, which window a value is computed
    from, the algebra of the blend, the rounding rule and the labels.

    The second embedding, [Module B64], runs the same definitions on binary64
    numbers with their rounding, their infinities and NaN.  It carries what
    the exact numbers cannot show: when the test [window.std() == 0]
    succeeds, and which entries are null.

    Two neighbours of that computation are embedded as well: the handling
    of the reply in [utils/alpha_ai_advisor.py], and the canonical items and
    the duplicate rows of [app.py]. *)

From Stdlib Require Import Ascii String Reals Lra Lia ZArith Bool List Sorted
  Permutation.
From Stdlib Require Floats Uint63.
Import ListNotations.
#[local] Set Warnings "-inexact-float".
Local Open Scope R_scope.

(** ** Nullable numbers: NaN as [None] *)

Definition cell : Type := option R.

Definition Reqb (x y : R) : bool := if Req_dec_T x y then true else false.
Definition Rltb (x y : R) : bool := if Rlt_dec x y then true else false.

Module Nan.

(** [pd.notna] on one entry. *)
Definition notna (c : cell) : bool :=
  match c with Some _ => true | None => false end.

(** Unary minus, [-x]: NaN stays NaN. *)
Definition neg (c : cell) : cell := option_map Ropp c.

Definition lift2 (f : R -> R -> R) (a b : cell) : cell :=
  match a, b with
  | Some x, Some y => Some (f x y)
  | _, _ => None
  end.

Definition sub : cell -> cell -> cell := lift2 Rminus.
Definition div : cell -> cell -> cell := lift2 Rdiv.

(** [c == t], [c > t] and [c < t]: every comparison with NaN is false. *)
Definition eqb (c : cell) (t : R) : bool :=
  match c with Some x => Reqb x t | None => false end.
Definition gtb (c : cell) (t : R) : bool :=
  match c with Some x => Rltb t x | None => false end.
Definition ltb (c : cell) (t : R) : bool :=
  match c with Some x => Rltb x t | None => false end.

(** NaN replaced by zero, as the skipping reductions do before they add. *)
Definition fill0 (c : cell) : R :=
  match c with Some x => x | None => 0 end.

End Nan.

(** ** Reductions of a column ([skipna=True], the pandas default) *)

Definition Rsum (l : list R) : R := fold_right Rplus 0 l.

(** [Series.count()]: the number of entries that are not NaN. *)
Definition count (w : list cell) : nat := length (filter Nan.notna w).

(** [Series.sum()]: NaN entries count as zero. *)
Definition nansum (w : list cell) : R := Rsum (map Nan.fill0 w).

(** [Series.mean()]: NaN when nothing is present. *)
Definition mean (w : list cell) : cell :=
  if (count w =? 0)%nat then None
  else Some (nansum w / INR (count w)).

(** [Series.var()] with [ddof = 1]: the squared deviations from the mean of
    the present entries, divided by their number minus one; NaN when fewer
    than two entries are present. *)
Definition var (w : list cell) : cell :=
  if (count w <=? 1)%nat then None
  else
    let avg := nansum w / INR (count w) in
    let sqr := map (fun c => option_map (fun x => Rsqr (avg - x)) c) w in
    Some (nansum sqr / INR (count w - 1)).

(** [Series.std()]: the sample standard deviation. *)
Definition std (w : list cell) : cell := option_map sqrt (var w).

(** ** [rolling_zscore] *)

(** The body of the loop, on [window = series.iloc[: i + 1]]. *)
Definition zscore_window (window : list cell) : cell :=
  if (count window <? 2)%nat || Nan.eqb (std window) 0 then Some 0
  else Nan.div (Nan.sub (last window None) (mean window)) (std window).

(** The list [z] that the loop builds over the values of the series. *)
Definition zscores (vs : list cell) : list cell :=
  map (fun i => zscore_window (firstn (S i) vs)) (seq 0 (length vs)).

(** A series: the index labels (years) with their values, in index order. *)
Definition Series : Type := list (Z * cell).

Definition index (s : Series) : list Z := map fst s.
Definition values (s : Series) : list cell := map snd s.

Definition rolling_zscore (series : Series) : Series :=
  combine (index series) (zscores (values series)).

(** ** Tables *)

(** One entry per metric, in the column order of the program's dicts. *)
Module Four.

Record t (A : Type) : Type :=
  mk { beneish : A; sloan : A; piotroski : A; altman : A }.
Arguments mk {A} _ _ _ _.
Arguments beneish {A} _.
Arguments sloan {A} _.
Arguments piotroski {A} _.
Arguments altman {A} _.

Definition map {A B : Type} (f : A -> B) (r : t A) : t B :=
  mk (f (beneish r)) (f (sloan r)) (f (piotroski r)) (f (altman r)).

Definition map2 {A B C : Type} (f : A -> B -> C) (r : t A) (q : t B) : t C :=
  mk (f (beneish r) (beneish q)) (f (sloan r) (sloan q))
     (f (piotroski r) (piotroski q)) (f (altman r) (altman q)).

Definition to_list {A : Type} (r : t A) : list A :=
  [beneish r; sloan r; piotroski r; altman r].

End Four.

(** A row of a four-column frame: its index label and its four entries. *)
Module Frame.
Record row : Type := mk { year : Z; cells : Four.t cell }.
End Frame.

(** A row of [df] once the column [signal_count] has been assigned. *)
Module Df.
Record row : Type := mk { year : Z; cells : Four.t cell; signal_count : Z }.

(** [df[name]]: one column, as a series over the index of [df]. *)
Definition column (f : Four.t cell -> cell) (df : list row) : Series :=
  map (fun r => (year r, f (cells r))) df.
End Df.

(** A row of the result. *)
Module Out.
Record t : Type :=
  mk { year : Z;
       beneish_signal : cell;
       sloan_signal : cell;
       piotroski_signal : cell;
       altman_signal : cell;
       forensic_alpha : cell;
       signal_count : Z;
       signal : string }.
End Out.

(** ** [pd.DataFrame] from a dict of four series

    pandas aligns the series on the union of their indexes.  When the four
    indexes are equal that index is taken as it is (any order, duplicates
    allowed) and the columns are laid side by side.  Otherwise the labels of
    the four indexes are made unique, sorted, and every series is reindexed
    on the result: a label a series lacks gives NaN, and a series with a
    repeated label cannot be reindexed (pandas raises [ValueError]). *)

Definition same_index (a b : list Z) : bool :=
  if list_eq_dec Z.eq_dec a b then true else false.

(** [Index.unique()]: first occurrences, in order. *)
Fixpoint unique (l : list Z) : list Z :=
  match l with
  | [] => []
  | x :: t => x :: filter (fun y => negb (y =? x)%Z) (unique t)
  end.

Fixpoint insert (x : Z) (l : list Z) : list Z :=
  match l with
  | [] => [x]
  | y :: t => if (x <=? y)%Z then x :: y :: t else y :: insert x t
  end.

(** [Index.sort_values()], ascending. *)
Definition sort_values (l : list Z) : list Z := fold_right insert [] l.

Fixpoint is_unique (l : list Z) : bool :=
  match l with
  | [] => true
  | x :: t => negb (existsb (Z.eqb x) t) && is_unique t
  end.

(** The value of a series at a label, NaN when the label is absent. *)
Definition get (s : Series) (y : Z) : cell :=
  match find (fun kv => (fst kv =? y)%Z) s with
  | Some kv => snd kv
  | None => None
  end.

(** [Series.reindex(idx)]; [None] stands for the [ValueError]. *)
Definition reindex (s : Series) (idx : list Z) : option (list cell) :=
  if is_unique (index s) then Some (map (get s) idx) else None.

(** Four columns over one index, side by side. *)
Fixpoint zip_rows (idx : list Z) (cb cs cp ca : list cell) : list Frame.row :=
  match idx, cb, cs, cp, ca with
  | y :: idx', b :: cb', s :: cs', p :: cp', a :: ca' =>
      Frame.mk y (Four.mk b s p a) :: zip_rows idx' cb' cs' cp' ca'
  | _, _, _, _, _ => []
  end.

Definition DataFrame (beneish sloan piotroski altman : Series)
  : option (list Frame.row) :=
  let ib := index beneish in
  if same_index ib (index sloan) && same_index ib (index piotroski)
     && same_index ib (index altman)
  then Some (zip_rows ib (values beneish) (values sloan)
                         (values piotroski) (values altman))
  else
    let idx := sort_values
                 (unique (ib ++ index sloan ++ index piotroski ++ index altman)) in
    match reindex beneish idx, reindex sloan idx,
          reindex piotroski idx, reindex altman idx with
    | Some cb, Some cs, Some cp, Some ca => Some (zip_rows idx cb cs cp ca)
    | _, _, _, _ => None
    end.

(** ** [forensic_alpha] *)

(** [df.notna().sum(axis=1)] on one row of the four-column frame. *)
Definition notna_count (r : Four.t cell) : Z :=
  fold_right Z.add 0%Z (map Z.b2z (Four.to_list (Four.map Nan.notna r))).

Definition assign_signal_count (r : Frame.row) : Df.row :=
  Df.mk (Frame.year r) (Frame.cells r) (notna_count (Frame.cells r)).

(** [-series]. *)
Definition neg_series (s : Series) : Series :=
  map (fun kv => (fst kv, Nan.neg (snd kv))) s.

(** [base_weights]. *)
Definition base_weights : Four.t R :=
  Four.mk (35 / 100) (25 / 100) (25 / 100) (15 / 100).

(** A boolean entry times a number: [True] is 1 and [False] is 0. *)
Definition bool_mul (b : bool) (w : R) : R := (if b then 1 else 0) * w.

(** [replace(0, np.nan)] on one entry. *)
Definition replace_0_nan (x : R) : cell := if Reqb x 0 then None else Some x.

(** [round(4)]: numpy scales by [10^4], rounds to the nearest integer with
    ties to the even one, and scales back. *)
Definition rint (x : R) : Z :=
  let n := Int_part x in
  let f := frac_part x in
  if Rltb f (1 / 2) then n
  else if Rltb (1 / 2) f then (n + 1)%Z
  else if Z.even n then n else (n + 1)%Z.

Definition round4 (x : R) : R := IZR (rint (x * 10000)) / 10000.

(** The local function [label]. *)
Definition label (alpha : cell) : string :=
  if Nan.gtb alpha 1 then "Strong Positive"%string
  else if Nan.gtb alpha (3 / 10) then "Positive"%string
  else if Nan.ltb alpha (-1) then "Strong Negative"%string
  else if Nan.ltb alpha (- (3 / 10)) then "Negative"%string
  else "Neutral"%string.

(** The columns of [result], side by side. *)
Fixpoint result_frame (signals : list Frame.row) (alpha : list cell)
    (counts : list Z) (labels : list string) : list Out.t :=
  match signals, alpha, counts, labels with
  | sg :: signals', al :: alpha', n :: counts', lb :: labels' =>
      Out.mk (Frame.year sg)
             (Four.beneish (Frame.cells sg)) (Four.sloan (Frame.cells sg))
             (Four.piotroski (Frame.cells sg)) (Four.altman (Frame.cells sg))
             al n lb
      :: result_frame signals' alpha' counts' labels'
  | _, _, _, _ => []
  end.

(** The computation from the weights on, on the frame [signals]. *)
Definition weighted_row (sg : Four.t cell) : Four.t cell :=
  Four.map2 (fun s w => option_map (fun x => x * w) s) sg base_weights.

Definition normalized_weight (wr : Four.t cell) : R :=
  Rsum (Four.to_list (Four.map2 bool_mul (Four.map Nan.notna wr) base_weights)).

Definition forensic_alpha (beneish sloan piotroski altman : Series)
    (min_signals : Z) : option (list Out.t) :=
  match DataFrame beneish sloan piotroski altman with
  | None => None
  | Some frame =>
    let df := filter (fun r => (min_signals <=? Df.signal_count r)%Z)
                     (map assign_signal_count frame) in
    match df with
    | [] => Some []
    | _ :: _ =>
      match DataFrame
              (neg_series (rolling_zscore (Df.column Four.beneish df)))
              (neg_series (rolling_zscore (Df.column Four.sloan df)))
              (rolling_zscore (Df.column Four.piotroski df))
              (rolling_zscore (Df.column Four.altman df)) with
      | None => None
      | Some signals =>
        let weighted := map (fun sg => weighted_row (Frame.cells sg)) signals in
        let normalized_weights := map normalized_weight weighted in
        let alpha :=
          map (fun nd => Nan.div (Some (fst nd)) (snd nd))
              (combine (map (fun wr => nansum (Four.to_list wr)) weighted)
                       (map replace_0_nan normalized_weights)) in
        let rounded := map (option_map round4) alpha in
        Some (result_frame signals rounded (map Df.signal_count df)
                           (map label rounded))
      end
    end
  end.

(** ** The program read row by row

    The definitions below describe one row of the result from the rows of
    [df]; [forensic_alpha_rows] proves that the column-wise program above
    computes exactly these rows. *)

(** The rows of [df] that pass the [min_signals] filter. *)
Definition surviving (beneish sloan piotroski altman : Series)
    (min_signals : Z) : option (list Df.row) :=
  option_map
    (fun frame => filter (fun r => (min_signals <=? Df.signal_count r)%Z)
                         (map assign_signal_count frame))
    (DataFrame beneish sloan piotroski altman).

(** The window of a metric at position [i] of [df]. *)
Definition window (f : Four.t cell -> cell) (df : list Df.row) (i : nat)
  : list cell :=
  firstn (S i) (values (Df.column f df)).

(** The row of [signals] at position [i]: the z-score of each metric on its
    window, negated for [beneish] and [sloan]. *)
Definition signals_at (df : list Df.row) (i : nat) : Four.t cell :=
  Four.mk (Nan.neg (zscore_window (window Four.beneish df i)))
          (Nan.neg (zscore_window (window Four.sloan df i)))
          (zscore_window (window Four.piotroski df i))
          (zscore_window (window Four.altman df i)).

(** The local variable [forensic_alpha] (before rounding) on one row. *)
Definition alpha_row (sg : Four.t cell) : cell :=
  Nan.div (Some (nansum (Four.to_list (weighted_row sg))))
          (replace_0_nan (normalized_weight (weighted_row sg))).

Definition nan_row : Df.row := Df.mk 0 (Four.mk None None None None) 0.

Definition blend_row (df : list Df.row) (i : nat) : Out.t :=
  let sg := signals_at df i in
  let rounded := option_map round4 (alpha_row sg) in
  Out.mk (Df.year (nth i df nan_row))
         (Four.beneish sg) (Four.sloan sg) (Four.piotroski sg) (Four.altman sg)
         rounded
         (Df.signal_count (nth i df nan_row))
         (label rounded).

Definition blend (df : list Df.row) : list Out.t :=
  map (blend_row df) (seq 0 (length df)).

(** ** The vocabulary of the specification *)

(** The observations of a window: its entries that are not null, in order. *)
Fixpoint observations (w : list cell) : list R :=
  match w with
  | [] => []
  | Some x :: t => x :: observations t
  | None :: t => observations t
  end.

(** The mean of [N] observations, and their sample standard deviation, the
    one that divides by [N - 1]. *)
Definition sample_mean (xs : list R) : R := Rsum xs / INR (length xs).

Definition sample_stddev (xs : list R) : R :=
  sqrt (Rsum (map (fun x => Rsqr (x - sample_mean xs)) xs)
        / (INR (length xs) - 1)).

(** The four metrics: the column of [df] and the column of the result. *)
Definition metric_columns : list ((Four.t cell -> cell) * (Out.t -> cell)) :=
  [(Four.beneish, Out.beneish_signal); (Four.sloan, Out.sloan_signal);
   (Four.piotroski, Out.piotroski_signal); (Four.altman, Out.altman_signal)].

(** "An entry of the normalized table is null if and only if its source
    value was null", for one call of the program. *)
Definition null_iff_source_null (b s p a : Series) (m : Z) : Prop :=
  forall out df i row r,
    forensic_alpha b s p a m = Some out ->
    surviving b s p a m = Some df ->
    nth_error out i = Some row ->
    nth_error df i = Some r ->
    forall src sig, In (src, sig) metric_columns ->
      (sig row = None <-> src (Df.cells r) = None).

(** The signals of a row that are not null, each with its static weight. *)
Definition present (sg : Four.t cell) : list (R * R) :=
  flat_map (fun sw => match fst sw with
                      | Some x => [(x, snd sw)]
                      | None => []
                      end)
           (combine (Four.to_list sg) (Four.to_list base_weights)).

(** The blend in the words of the specification: the sum of the non-null
    signals, each times its weight, over the sum of the weights of the
    non-null signals; null when no signal is present. *)
Definition blend_formula (sg : Four.t cell) : cell :=
  match present sg with
  | [] => None
  | l => Some (Rsum (map (fun sw => fst sw * snd sw) l) / Rsum (map snd l))
  end.

(** The four signals of a row of the result. *)
Definition signals_of (row : Out.t) : Four.t cell :=
  Four.mk (Out.beneish_signal row) (Out.sloan_signal row)
          (Out.piotroski_signal row) (Out.altman_signal row).

(** Years in ascending order. *)
Definition ascending (years : list Z) : Prop := StronglySorted Z.lt years.


(** The decimal digits of a number through the fourth decimal place: its
    sign, and the integer part of its magnitude scaled by [10^4].  Two
    numbers with the same [decimals4] differ only beyond the fourth
    decimal place. *)
Definition decimals4 (x : R) : bool * Z :=
  (Rltb x 0, Int_part (Rabs x * 10000)).

(** ** Sample inputs *)

Module Sample.

(** A series, and a second one that agrees with it on 2020 and 2021 only. *)
Definition s1 : Series :=
  [(2020%Z, Some 1); (2021%Z, Some 2); (2022%Z, Some 5)].
Definition s2 : Series :=
  [(2020%Z, Some 1); (2021%Z, Some 2); (2022%Z, None); (2023%Z, Some 7)].

(** The values of a two-year series. *)
Definition values_1_3 : list cell := [Some 1; Some 3].

(** One year, with [beneish] missing. *)
Definition missing_2020 : Series := [(2020%Z, None)].
Definition one_2020 : Series := [(2020%Z, Some 1)].
Definition df_missing_2020 : list Df.row :=
  [Df.mk 2020 (Four.mk None (Some 1) (Some 1) (Some 1)) 3].

(** Three years; [altman] is missing in 2022, after two different values. *)
Definition full_3y : Series :=
  [(2020%Z, Some 1); (2021%Z, Some 2); (2022%Z, Some 4)].
Definition late_gap_3y : Series :=
  [(2020%Z, Some 1); (2021%Z, Some 2); (2022%Z, None)].
Definition df_late_gap : list Df.row :=
  [Df.mk 2020 (Four.mk (Some 1) (Some 1) (Some 1) (Some 1)) 4;
   Df.mk 2021 (Four.mk (Some 2) (Some 2) (Some 2) (Some 2)) 4;
   Df.mk 2022 (Four.mk (Some 4) (Some 4) (Some 4) None) 3].

(** The same gap in all four series: 2022 has no score at all. *)
Definition df_empty_2022 : list Df.row :=
  [Df.mk 2020 (Four.mk (Some 1) (Some 1) (Some 1) (Some 1)) 4;
   Df.mk 2021 (Four.mk (Some 2) (Some 2) (Some 2) (Some 2)) 4;
   Df.mk 2022 (Four.mk None None None None) 0].

(** Five years whose counts of present scores are 4, 2, 4, 1 and 3. *)
Definition beneish_5y : Series :=
  [(2019%Z, Some 1); (2020%Z, Some 2); (2021%Z, Some 3); (2022%Z, Some 4);
   (2023%Z, Some 5)].
Definition sloan_5y : Series :=
  [(2019%Z, Some 1); (2020%Z, Some 2); (2021%Z, Some 3); (2022%Z, None);
   (2023%Z, Some 5)].
Definition piotroski_5y : Series :=
  [(2019%Z, Some 1); (2020%Z, None); (2021%Z, Some 3); (2022%Z, None);
   (2023%Z, Some 5)].
Definition altman_5y : Series :=
  [(2019%Z, Some 1); (2020%Z, None); (2021%Z, Some 3); (2022%Z, None);
   (2023%Z, None)].
Definition frame_5y : list Frame.row :=
  [Frame.mk 2019 (Four.mk (Some 1) (Some 1) (Some 1) (Some 1));
   Frame.mk 2020 (Four.mk (Some 2) (Some 2) None None);
   Frame.mk 2021 (Four.mk (Some 3) (Some 3) (Some 3) (Some 3));
   Frame.mk 2022 (Four.mk (Some 4) None None None);
   Frame.mk 2023 (Four.mk (Some 5) (Some 5) (Some 5) None)].

(** Two years given in descending order, the same in the four series. *)
Definition descending_2y : Series := [(2021%Z, Some 2); (2020%Z, Some 1)].
Definition df_descending : list Df.row :=
  [Df.mk 2021 (Four.mk (Some 2) (Some 2) (Some 2) (Some 2)) 4;
   Df.mk 2020 (Four.mk (Some 1) (Some 1) (Some 1) (Some 1)) 4].

(** Three constant series, and two series for [piotroski] whose last
    z-scores are 299/259 and 112/97. *)
Definition ones_3y : Series :=
  [(2020%Z, Some 1); (2021%Z, Some 1); (2022%Z, Some 1)].
Definition piotroski_x : Series :=
  [(2020%Z, Some (-144)); (2021%Z, Some (-155)); (2022%Z, Some 299)].
Definition df_x : list Df.row :=
  [Df.mk 2020 (Four.mk (Some 1) (Some 1) (Some (-144)) (Some 1)) 4;
   Df.mk 2021 (Four.mk (Some 1) (Some 1) (Some (-155)) (Some 1)) 4;
   Df.mk 2022 (Four.mk (Some 1) (Some 1) (Some 299) (Some 1)) 4].

(** Series with different indexes: 2021 is absent from the second. *)
Definition years_20_21 : Series := [(2020%Z, Some 1); (2021%Z, Some 2)].
Definition years_22_20 : Series := [(2022%Z, Some 6); (2020%Z, Some 5)].

End Sample.

(** ** The order of the labels *)

(** The rank of a label, from "Strong Negative" (-2) to "Strong Positive"
    (2). *)
Definition label_rank (l : string) : Z :=
  if String.eqb l "Strong Positive" then 2
  else if String.eqb l "Positive" then 1
  else if String.eqb l "Negative" then (-1)
  else if String.eqb l "Strong Negative" then (-2)
  else 0.

(** ** The advisory call: [utils/alpha_ai_advisor.py]

    A text is the list of its characters.  The outcome of the HTTP exchange
    and [json.loads] are given from outside: the function is modelled from
    the point where the reply of the service is known. *)

Module Advisor.

Definition text : Type := list Ascii.ascii.

(** [raw.find(c)]: the index of the first [c], and -1 when there is none. *)
Fixpoint find (c : Ascii.ascii) (raw : text) : Z :=
  match raw with
  | [] => -1
  | x :: rest =>
      if Ascii.eqb x c then 0
      else let r := find c rest in if (r =? -1)%Z then -1 else r + 1
  end%Z.

(** [raw.rfind(c)]: the index of the last [c], and -1 when there is none. *)
Fixpoint rfind (c : Ascii.ascii) (raw : text) : Z :=
  match raw with
  | [] => -1
  | x :: rest =>
      let r := rfind c rest in
      if (r =? -1)%Z then (if Ascii.eqb x c then 0 else -1) else r + 1
  end%Z.

(** [raw[start:stop]] for indexes that are not negative. *)
Definition slice (raw : text) (start stop : Z) : text :=
  firstn (Z.to_nat (stop - start)) (skipn (Z.to_nat start) raw).

(** The reply of the service: [Failed] when [requests.post],
    [raise_for_status] or [response.json()] raised, or the value at
    ["response"] is not a string; otherwise that value, if the key is
    there. *)
Inductive reply : Type :=
| Failed
| Body (response : option text).

(** What the function returns: the parsed object, or the fixed dict of the
    [except] branch. *)
Inductive advice (J : Type) : Type :=
| Parsed (j : J)
| Fallback.
Arguments Parsed {J} j.
Arguments Fallback {J}.

(** The entries of the fallback dict. *)
Definition fallback : list (string * string) :=
  [("recommendation", "HOLD"); ("confidence", "Low");
   ("reasoning",
    "AI interpretation unavailable. Recommendation based solely on quantitative forensic alpha.")
  ]%string.

(** The text between the first opening and the last closing brace;
    [None] stands for the [ValueError]. *)
Definition extract (raw : text) : option text :=
  let start := find "{"%char raw in
  let stop := rfind "}"%char raw in
  if (start =? -1)%Z || (stop =? -1)%Z then None
  else Some (slice raw start (stop + 1)).

Section Recommendation.

(** The parsed objects, and [json.loads]: [None] when it raises. *)
Variable J : Type.
Variable loads : text -> option J.

Definition ai_alpha_recommendation (r : reply) : advice J :=
  match r with
  | Failed => Fallback
  | Body response =>
      let raw := match response with Some t => t | None => [] end in
      match extract raw with
      | None => Fallback
      | Some t =>
          match loads t with
          | Some j => Parsed j
          | None => Fallback
          end
      end
  end.

End Recommendation.

End Advisor.

(** ** Cleaning the uploaded rows: [app.py]

    The characters are the code points 0 to 255. *)

Module App.

(** [str.lower()] on one character. *)
Definition lower_char (c : Ascii.ascii) : Ascii.ascii :=
  let n := Ascii.nat_of_ascii c in
  if ((65 <=? n) && (n <=? 90)
      || (192 <=? n) && (n <=? 222) && negb (n =? 215))%nat
  then Ascii.ascii_of_nat (n + 32)
  else c.

(** [str.replace(old, new)] for one-character [old] and [new]. *)
Definition replace_char (old new : Ascii.ascii) (t : list Ascii.ascii)
  : list Ascii.ascii :=
  map (fun c => if Ascii.eqb c old then new else c) t.

(** The column [canonical_item]. *)
Definition canonical_item (item : list Ascii.ascii) : list Ascii.ascii :=
  replace_char "-"%char "_"%char
    (replace_char " "%char "_"%char (map lower_char item)).

(** A row of the edited table: its year, its canonical item and its value
    as entered. *)
Record entry : Type :=
  mk { year : list Ascii.ascii;
       item : list Ascii.ascii;
       value : list Ascii.ascii }.

Definition key (e : entry) : list Ascii.ascii * list Ascii.ascii :=
  (year e, item e).

Definition key_eqb (k1 k2 : list Ascii.ascii * list Ascii.ascii) : bool :=
  if list_eq_dec Ascii.ascii_dec (fst k1) (fst k2)
  then if list_eq_dec Ascii.ascii_dec (snd k1) (snd k2) then true else false
  else false.

(** [edited.duplicated(subset=["year", "canonical_item"])]: a row is marked
    when an earlier row has its year and item. *)
Fixpoint duplicated_from (seen : list (list Ascii.ascii * list Ascii.ascii))
    (rows : list entry) : list bool :=
  match rows with
  | [] => []
  | e :: rest =>
      existsb (key_eqb (key e)) seen :: duplicated_from (key e :: seen) rest
  end.

Definition duplicated (rows : list entry) : list bool :=
  duplicated_from [] rows.

(** [.sum()] of the marks. *)
Definition dup_count (rows : list entry) : nat :=
  List.length (filter (fun d => d) (duplicated rows)).

(** [drop_duplicates(subset=..., keep="first")]: the rows that are not
    marked. *)
Definition drop_duplicates (rows : list entry) : list entry :=
  map fst (filter (fun ed => negb (snd ed)) (combine rows (duplicated rows))).

(** Step 1 of "Confirm & Calculate". *)
Definition confirm_duplicates (edited : list entry) : list entry :=
  if (0 <? dup_count edited)%nat then drop_duplicates edited else edited.


End App.

(** Three rows of an edited table with three different keys, and the same
    table in which the key of the second row is entered twice more, with
    other values. *)
Definition three_entries : list App.entry :=
  [App.mk (list_ascii_of_string "2020") (list_ascii_of_string "sales")
          (list_ascii_of_string "10");
   App.mk (list_ascii_of_string "2020") (list_ascii_of_string "net_income")
          (list_ascii_of_string "3");
   App.mk (list_ascii_of_string "2021") (list_ascii_of_string "sales")
          (list_ascii_of_string "12")].

Definition repeated_entries : list App.entry :=
  [App.mk (list_ascii_of_string "2020") (list_ascii_of_string "sales")
          (list_ascii_of_string "10");
   App.mk (list_ascii_of_string "2020") (list_ascii_of_string "net_income")
          (list_ascii_of_string "3");
   App.mk (list_ascii_of_string "2020") (list_ascii_of_string "net_income")
          (list_ascii_of_string "4");
   App.mk (list_ascii_of_string "2021") (list_ascii_of_string "sales")
          (list_ascii_of_string "12");
   App.mk (list_ascii_of_string "2020") (list_ascii_of_string "net_income")
          (list_ascii_of_string "5")].

(** The three steps of [canonical_item] on one character. *)
Definition canonical_char (c : ascii) : ascii :=
  let l := App.lower_char c in
  let u := if Ascii.eqb l " "%char then "_"%char else l in
  if Ascii.eqb u "-"%char then "_"%char else u.

(** The rows kept after the keys [seen]. *)
Definition drop_from (seen : list (list ascii * list ascii))
    (rows : list App.entry) : list App.entry :=
  map fst (filter (fun ed => negb (snd ed))
                  (combine rows (App.duplicated_from seen rows))).

(** ** The same computation on binary64 numbers

    The columns of the program hold IEEE 754 binary64 numbers, on which
    numpy computes with rounding to nearest, ties to even.  Rocq's primitive
    floats are these numbers with this arithmetic, so the definitions of
    [Module B64] run the program as it computes: NaN marks a missing value,
    a sum can overflow to an infinity, and every operation rounds.

    One thing is left open.  A reduction over a column ([Series.sum],
    [Series.mean], [Series.std]) adds the entries in an order that is numpy's
    business: from left to right for fewer than eight entries, in blocks for
    more.  The reductions over a window therefore take the addition of a
    list of numbers, [fsum], as a parameter; [add_in_order] is the order of
    the short case, and the order in which the four entries of a row are
    added. *)

Module B64.
Import PrimFloat.

(** [pd.notna] on one entry. *)
Definition notna (c : float) : bool := negb (is_nan c).

(** NaN replaced by zero, as the skipping reductions do before they add. *)
Definition fill0 (c : float) : float := if is_nan c then 0%float else c.

(** [Series.count()]. *)
Definition count (w : list float) : nat := length (filter notna w).

(** A count as a float64 number. *)
Definition of_nat (n : nat) : float := of_uint63 (Uint63.of_Z (Z.of_nat n)).

(** The entries added one after the other, from 0. *)
Definition add_in_order (l : list float) : float := fold_left add l 0%float.

(** [replace(0, np.nan)] on one entry. *)
Definition replace_0_nan (x : float) : float :=
  if (x =? 0)%float then nan else x.

(** [np.rint]: the nearest integer, ties to the even one.  Below [2^52] in
    magnitude that is what adding and subtracting [2^52] leaves, with the
    sign put back; from [2^52] on every number is an integer. *)
Definition rint (x : float) : float :=
  if (abs x <? 4503599627370496)%float
  then let r := ((abs x + 4503599627370496) - 4503599627370496)%float in
       if get_sign x then (- r)%float else r
  else x.

(** [round(4)]: numpy multiplies by [10^4], rounds to the nearest integer
    and divides by [10^4]. *)
Definition round4 (x : float) : float := (rint (x * 10000) / 10000)%float.

(** The local function [label]. *)
Definition label (alpha : float) : string :=
  if (1 <? alpha)%float then "Strong Positive"%string
  else if (0.3 <? alpha)%float then "Positive"%string
  else if (alpha <? -1)%float then "Strong Negative"%string
  else if (alpha <? -0.3)%float then "Negative"%string
  else "Neutral"%string.

(** A series: the index labels (years) with their values, in index order. *)
Definition Series : Type := list (Z * float).

Definition index (s : Series) : list Z := map fst s.
Definition values (s : Series) : list float := map snd s.

(** [-series]. *)
Definition neg_series (s : Series) : Series :=
  map (fun kv => (fst kv, (- snd kv)%float)) s.

Module Frame.
Record row : Type := mk { year : Z; cells : Four.t float }.
End Frame.

Module Df.
Record row : Type := mk { year : Z; cells : Four.t float; signal_count : Z }.

Definition column (f : Four.t float -> float) (df : list row) : Series :=
  map (fun r => (year r, f (cells r))) df.
End Df.

Module Out.
Record t : Type :=
  mk { year : Z;
       beneish_signal : float;
       sloan_signal : float;
       piotroski_signal : float;
       altman_signal : float;
       forensic_alpha : float;
       signal_count : Z;
       signal : string }.
End Out.

(** [pd.DataFrame] from a dict of four series, as for the exact numbers. *)
Definition get (s : Series) (y : Z) : float :=
  match find (fun kv => (fst kv =? y)%Z) s with
  | Some kv => snd kv
  | None => nan
  end.

Definition reindex (s : Series) (idx : list Z) : option (list float) :=
  if is_unique (index s) then Some (map (get s) idx) else None.

Fixpoint zip_rows (idx : list Z) (cb cs cp ca : list float)
  : list Frame.row :=
  match idx, cb, cs, cp, ca with
  | y :: idx', b :: cb', s :: cs', p :: cp', a :: ca' =>
      Frame.mk y (Four.mk b s p a) :: zip_rows idx' cb' cs' cp' ca'
  | _, _, _, _, _ => []
  end.

Definition DataFrame (beneish sloan piotroski altman : Series)
  : option (list Frame.row) :=
  let ib := index beneish in
  if same_index ib (index sloan) && same_index ib (index piotroski)
     && same_index ib (index altman)
  then Some (zip_rows ib (values beneish) (values sloan)
                         (values piotroski) (values altman))
  else
    let idx := sort_values
                 (unique (ib ++ index sloan ++ index piotroski ++ index altman)) in
    match reindex beneish idx, reindex sloan idx,
          reindex piotroski idx, reindex altman idx with
    | Some cb, Some cs, Some cp, Some ca => Some (zip_rows idx cb cs cp ca)
    | _, _, _, _ => None
    end.

Definition notna_count (r : Four.t float) : Z :=
  fold_right Z.add 0%Z (map Z.b2z (Four.to_list (Four.map notna r))).

Definition assign_signal_count (r : Frame.row) : Df.row :=
  Df.mk (Frame.year r) (Frame.cells r) (notna_count (Frame.cells r)).

(** [base_weights]. *)
Definition base_weights : Four.t float :=
  Four.mk 0.35%float 0.25%float 0.25%float 0.15%float.

(** A boolean entry times a number: [True] is 1 and [False] is 0. *)
Definition bool_mul (b : bool) (w : float) : float :=
  ((if b then 1 else 0) * w)%float.

Definition weighted_row (sg : Four.t float) : Four.t float :=
  Four.map2 mul sg base_weights.

(** [weighted.notna().mul(weights).sum(axis=1)] on one row. *)
Definition normalized_weight (wr : Four.t float) : float :=
  add_in_order
    (Four.to_list (Four.map2 bool_mul (Four.map notna wr) base_weights)).

(** [weighted.sum(axis=1)] on one row. *)
Definition weighted_sum (wr : Four.t float) : float :=
  add_in_order (map fill0 (Four.to_list wr)).

Fixpoint result_frame (signals : list Frame.row) (alpha : list float)
    (counts : list Z) (labels : list string) : list Out.t :=
  match signals, alpha, counts, labels with
  | sg :: signals', al :: alpha', n :: counts', lb :: labels' =>
      Out.mk (Frame.year sg)
             (Four.beneish (Frame.cells sg)) (Four.sloan (Frame.cells sg))
             (Four.piotroski (Frame.cells sg)) (Four.altman (Frame.cells sg))
             al n lb
      :: result_frame signals' alpha' counts' labels'
  | _, _, _, _ => []
  end.

Section Reduction.

(** The sum of the entries of a column, in numpy's order. *)
Variable fsum : list float -> float.

(** [Series.sum()]: NaN entries count as zero. *)
Definition nansum (w : list float) : float := fsum (map fill0 w).

(** [Series.mean()]. *)
Definition mean (w : list float) : float :=
  if (count w =? 0)%nat then nan
  else (nansum w / of_nat (count w))%float.

(** [Series.var()] with [ddof = 1]. *)
Definition var (w : list float) : float :=
  if (count w <=? 1)%nat then nan
  else
    let avg := (nansum w / of_nat (count w))%float in
    let sqr := map (fun c => if is_nan c then 0%float
                             else ((avg - c) * (avg - c))%float) w in
    (fsum sqr / of_nat (count w - 1))%float.

(** [Series.std()]. *)
Definition std (w : list float) : float := sqrt (var w).

(** The body of the loop of [rolling_zscore]. *)
Definition zscore_window (window : list float) : float :=
  if (count window <? 2)%nat || (std window =? 0)%float then 0%float
  else ((last window nan - mean window) / std window)%float.

Definition zscores (vs : list float) : list float :=
  map (fun i => zscore_window (firstn (S i) vs)) (seq 0 (length vs)).

Definition rolling_zscore (series : Series) : Series :=
  combine (index series) (zscores (values series)).

Definition forensic_alpha (beneish sloan piotroski altman : Series)
    (min_signals : Z) : option (list Out.t) :=
  match DataFrame beneish sloan piotroski altman with
  | None => None
  | Some frame =>
    let df := filter (fun r => (min_signals <=? Df.signal_count r)%Z)
                     (map assign_signal_count frame) in
    match df with
    | [] => Some []
    | _ :: _ =>
      match DataFrame
              (neg_series (rolling_zscore (Df.column Four.beneish df)))
              (neg_series (rolling_zscore (Df.column Four.sloan df)))
              (rolling_zscore (Df.column Four.piotroski df))
              (rolling_zscore (Df.column Four.altman df)) with
      | None => None
      | Some signals =>
        let weighted := map (fun sg => weighted_row (Frame.cells sg)) signals in
        let normalized_weights := map normalized_weight weighted in
        let alpha :=
          map (fun nd => (fst nd / snd nd)%float)
              (combine (map weighted_sum weighted)
                       (map replace_0_nan normalized_weights)) in
        let rounded := map round4 alpha in
        Some (result_frame signals rounded (map Df.signal_count df)
                           (map label rounded))
      end
    end
  end.

(** The program read row by row, as for the exact numbers. *)
Definition surviving (beneish sloan piotroski altman : Series)
    (min_signals : Z) : option (list Df.row) :=
  option_map
    (fun frame => filter (fun r => (min_signals <=? Df.signal_count r)%Z)
                         (map assign_signal_count frame))
    (DataFrame beneish sloan piotroski altman).

Definition window (f : Four.t float -> float) (df : list Df.row) (i : nat)
  : list float :=
  firstn (S i) (values (Df.column f df)).

Definition signals_at (df : list Df.row) (i : nat) : Four.t float :=
  Four.mk (- zscore_window (window Four.beneish df i))%float
          (- zscore_window (window Four.sloan df i))%float
          (zscore_window (window Four.piotroski df i))
          (zscore_window (window Four.altman df i)).

(** The local variable [forensic_alpha] (before rounding) on one row. *)
Definition alpha_row (sg : Four.t float) : float :=
  (weighted_sum (weighted_row sg)
   / replace_0_nan (normalized_weight (weighted_row sg)))%float.

Definition nan_row : Df.row := Df.mk 0 (Four.mk nan nan nan nan) 0.

Definition blend_row (df : list Df.row) (i : nat) : Out.t :=
  let sg := signals_at df i in
  let rounded := round4 (alpha_row sg) in
  Out.mk (Df.year (nth i df nan_row))
         (Four.beneish sg) (Four.sloan sg) (Four.piotroski sg) (Four.altman sg)
         rounded
         (Df.signal_count (nth i df nan_row))
         (label rounded).

Definition blend (df : list Df.row) : list Out.t :=
  map (blend_row df) (seq 0 (length df)).

End Reduction.

(** The four signals of a row of the result. *)
Definition signals_of (row : Out.t) : Four.t float :=
  Four.mk (Out.beneish_signal row) (Out.sloan_signal row)
          (Out.piotroski_signal row) (Out.altman_signal row).

(** The four metrics: the column of [df], the column of the result, and
    whether the z-score is negated. *)
Definition metric_columns
  : list ((Four.t float -> float) * (Out.t -> float) * bool) :=
  [(Four.beneish, Out.beneish_signal, true);
   (Four.sloan, Out.sloan_signal, true);
   (Four.piotroski, Out.piotroski_signal, false);
   (Four.altman, Out.altman_signal, false)].

(** The test of the loop: fewer than two observations, or a deviation that
    compares equal to 0. *)
Definition degenerate (fsum : list float -> float) (w : list float) : bool :=
  (count w <? 2)%nat || (std fsum w =? 0)%float.


(** "With [min_signals >= 1] the effective denominator of every row of the
    result is strictly positive". *)
Definition denominator_positive (fsum : list float -> float)
    (b s p a : Series) (m : Z) : Prop :=
  (1 <= m)%Z ->
  forall out row,
    forensic_alpha fsum b s p a m = Some out -> In row out ->
    (0 <? normalized_weight (weighted_row (signals_of row)))%float = true.

(** Sample inputs. *)
Module Sample.


(** Two large values whose sum overflows. *)
Definition huge_2y : Series := [(2020%Z, 1e308%float); (2021%Z, 1e308%float)].

(** A source value that is an infinity. *)
Definition inf_2y : Series := [(2020%Z, 1%float); (2021%Z, infinity)].

(** Three years, and the same with the last value missing; the table of
    three rising series and one with the gap. *)
Definition rising_3y : Series :=
  [(2020%Z, 1%float); (2021%Z, 2%float); (2022%Z, 4%float)].
Definition gap_3y : Series :=
  [(2020%Z, 1%float); (2021%Z, 2%float); (2022%Z, nan)].
Definition df_gap : list Df.row :=
  [Df.mk 2020 (Four.mk 1 1 1 1)%float 4;
   Df.mk 2021 (Four.mk 2 2 2 2)%float 4;
   Df.mk 2022 (Four.mk 4 4 4 nan)%float 3].

(** One year, with [beneish] missing. *)
Definition missing_2020 : Series := [(2020%Z, nan)].
Definition one_2020 : Series := [(2020%Z, 1%float)].

End Sample.

End B64.

(** In the specification of binary64: a zero or a finite number, that is
    neither NaN nor an infinity. *)
Definition SFfinite (x : SpecFloat.spec_float) : Prop :=
  match x with
  | SpecFloat.S754_zero _ | SpecFloat.S754_finite _ _ _ => True
  | _ => False
  end.

(** ** Proof steps *)

(** The sixteen cases of which signals of a row are null. *)
Ltac four_cases sg :=
  destruct sg as [[?b|] [?s|] [?p|] [?a|]];
  unfold normalized_weight, weighted_row, bool_mul, base_weights, nansum;
  cbn [Four.map Four.map2 Four.to_list Four.beneish Four.sloan Four.piotroski
       Four.altman option_map Nan.notna Nan.fill0 map Rsum fold_right].

(** The label of a number, by its comparisons with the thresholds. *)
Ltac label_cases :=
  unfold label, Nan.gtb, Nan.ltb, Rltb;
  repeat (destruct (Rlt_dec _ _); try lra);
  reflexivity.

(** * Properties *)

(** ** Lists *)

Lemma map_nth_seq {A B : Type} (g : A -> B) (l : list A) (d : A) :
  map g l = map (fun i => g (nth i l d)) (seq 0 (length l)).
Proof.
  induction l as [|x l IH]; simpl; [reflexivity|].
  f_equal. rewrite <- seq_shift, map_map. exact IH.
Qed.

Lemma combine_map_same {A B C : Type} (f : A -> B) (g : A -> C) (l : list A) :
  combine (map f l) (map g l) = map (fun x => (f x, g x)) l.
Proof. induction l; simpl; congruence. Qed.

Lemma zip_rows_map {A : Type} (fy : A -> Z) (fb fs fp fa : A -> cell)
    (l : list A) :
  zip_rows (map fy l) (map fb l) (map fs l) (map fp l) (map fa l)
  = map (fun x => Frame.mk (fy x) (Four.mk (fb x) (fs x) (fp x) (fa x))) l.
Proof. induction l; simpl; congruence. Qed.

Lemma result_frame_map {A : Type} (fs : A -> Frame.row) (fa : A -> cell)
    (fn : A -> Z) (fl : A -> string) (l : list A) :
  result_frame (map fs l) (map fa l) (map fn l) (map fl l)
  = map (fun x => Out.mk (Frame.year (fs x))
                    (Four.beneish (Frame.cells (fs x)))
                    (Four.sloan (Frame.cells (fs x)))
                    (Four.piotroski (Frame.cells (fs x)))
                    (Four.altman (Frame.cells (fs x)))
                    (fa x) (fn x) (fl x)) l.
Proof. induction l; simpl; congruence. Qed.

Lemma same_index_refl (a : list Z) : same_index a a = true.
Proof. unfold same_index. destruct (list_eq_dec Z.eq_dec a a); congruence. Qed.

Lemma same_index_true (a b : list Z) : same_index a b = true -> a = b.
Proof. unfold same_index. destruct (list_eq_dec Z.eq_dec a b); congruence. Qed.

(** ** Series and their z-scores *)

Lemma length_zscores (vs : list cell) : length (zscores vs) = length vs.
Proof. unfold zscores. now rewrite length_map, length_seq. Qed.

Lemma index_rolling_zscore (s : Series) : index (rolling_zscore s) = index s.
Proof.
  unfold rolling_zscore, index.
  assert (H : forall (a : list Z) (b : list cell),
             length a = length b -> map fst (combine a b) = a).
  { induction a as [|x a IH]; intros [|y b] E; simpl in *; try congruence.
    f_equal. apply IH. congruence. }
  apply H. unfold values. now rewrite length_zscores, !length_map.
Qed.

Lemma values_rolling_zscore (s : Series) :
  values (rolling_zscore s) = zscores (values s).
Proof.
  unfold rolling_zscore, values at 1.
  assert (H : forall (a : list Z) (b : list cell),
             length a = length b -> map snd (combine a b) = b).
  { induction a as [|x a IH]; intros [|y b] E; simpl in *; try congruence.
    f_equal. apply IH. congruence. }
  apply H. unfold index, values. now rewrite length_zscores, !length_map.
Qed.

Lemma index_neg_series (s : Series) : index (neg_series s) = index s.
Proof. unfold index, neg_series. rewrite map_map. reflexivity. Qed.

Lemma values_neg_series (s : Series) :
  values (neg_series s) = map Nan.neg (values s).
Proof. unfold values, neg_series. now rewrite !map_map. Qed.

Lemma index_column (f : Four.t cell -> cell) (df : list Df.row) :
  index (Df.column f df) = map Df.year df.
Proof. unfold index, Df.column. now rewrite map_map. Qed.

Lemma values_column (f : Four.t cell -> cell) (df : list Df.row) :
  values (Df.column f df) = map (fun r => f (Df.cells r)) df.
Proof. unfold values, Df.column. now rewrite map_map. Qed.

Lemma length_values_column (f : Four.t cell -> cell) (df : list Df.row) :
  length (values (Df.column f df)) = length df.
Proof. now rewrite values_column, length_map. Qed.

Lemma zscores_column (f : Four.t cell -> cell) (df : list Df.row) :
  zscores (values (Df.column f df))
  = map (fun i => zscore_window (window f df i)) (seq 0 (length df)).
Proof. unfold zscores, window. now rewrite length_values_column. Qed.

(** A frame over four series that share their index. *)
Lemma DataFrame_same_index (b s p a : Series) :
  index s = index b -> index p = index b -> index a = index b ->
  DataFrame b s p a
  = Some (zip_rows (index b) (values b) (values s) (values p) (values a)).
Proof.
  intros Hs Hp Ha. unfold DataFrame.
  now rewrite Hs, Hp, Ha, !same_index_refl.
Qed.

(** ** The program, row by row *)

Lemma forensic_alpha_rows (beneish sloan piotroski altman : Series)
    (min_signals : Z) :
  forensic_alpha beneish sloan piotroski altman min_signals
  = option_map blend (surviving beneish sloan piotroski altman min_signals).
Proof.
  unfold forensic_alpha, surviving.
  destruct (DataFrame beneish sloan piotroski altman) as [frame|];
    [|reflexivity].
  cbn [option_map].
  set (df := filter _ _).
  destruct df as [|r0 df'] eqn:Edf; [reflexivity|].
  rewrite <- Edf. clear Edf r0 df'.
  rewrite DataFrame_same_index;
    rewrite ?index_neg_series, ?index_rolling_zscore, ?index_column;
    try reflexivity.
  rewrite !values_neg_series, !values_rolling_zscore, !zscores_column.
  rewrite (map_nth_seq Df.year df nan_row).
  rewrite (map_nth_seq Df.signal_count df nan_row).
  rewrite !map_map.
  rewrite zip_rows_map.
  rewrite !map_map.
  rewrite combine_map_same, !map_map.
  rewrite result_frame_map.
  reflexivity.
Qed.

(** ** Comparisons *)

Lemma Reqb_true (x y : R) : Reqb x y = true <-> x = y.
Proof. unfold Reqb. destruct (Req_dec_T x y); split; congruence. Qed.

Lemma Reqb_false (x y : R) : Reqb x y = false <-> x <> y.
Proof. unfold Reqb. destruct (Req_dec_T x y); split; congruence. Qed.

Lemma Rltb_true (x y : R) : Rltb x y = true <-> x < y.
Proof. unfold Rltb. destruct (Rlt_dec x y); split; congruence. Qed.

Lemma Rltb_false (x y : R) : Rltb x y = false <-> y <= x.
Proof.
  unfold Rltb. destruct (Rlt_dec x y); split; try congruence; lra.
Qed.

Lemma Nan_eqb_true (c : cell) (t : R) : Nan.eqb c t = true <-> c = Some t.
Proof.
  destruct c as [x|]; simpl; [|split; discriminate].
  rewrite Reqb_true. split; congruence.
Qed.

(** ** The reductions, on the observations of a window *)

Lemma count_observations (w : list cell) : count w = length (observations w).
Proof.
  unfold count. induction w as [|[x|] w IH]; simpl; congruence.
Qed.

Lemma nansum_observations (w : list cell) : nansum w = Rsum (observations w).
Proof.
  unfold nansum. induction w as [|[x|] w IH]; simpl; [reflexivity| |]; lra.
Qed.

Lemma nansum_map_observations (g : R -> R) (w : list cell) :
  nansum (map (option_map g) w) = Rsum (map g (observations w)).
Proof.
  unfold nansum. induction w as [|[x|] w IH]; simpl; [reflexivity| |]; lra.
Qed.

Lemma mean_sample_mean (w : list cell) :
  (1 <= count w)%nat -> mean w = Some (sample_mean (observations w)).
Proof.
  intros H. unfold mean, sample_mean.
  destruct (Nat.eqb_spec (count w) 0); [lia|].
  now rewrite nansum_observations, count_observations.
Qed.

Lemma std_sample_stddev (w : list cell) :
  (2 <= count w)%nat -> std w = Some (sample_stddev (observations w)).
Proof.
  intros H. unfold std, var, sample_stddev, sample_mean.
  destruct (Nat.leb_spec (count w) 1); [lia|].
  cbn [option_map]. do 2 f_equal.
  rewrite (nansum_map_observations
             (fun x => Rsqr (nansum w / INR (count w) - x))).
  rewrite nansum_observations, count_observations.
  rewrite minus_INR by (rewrite <- count_observations; lia).
  f_equal. f_equal. apply map_ext. intros x. apply Rsqr_neg_minus.
Qed.

Lemma std_few (w : list cell) : (count w < 2)%nat -> std w = None.
Proof.
  intros H. unfold std, var.
  destruct (Nat.leb_spec (count w) 1); [reflexivity|lia].
Qed.

(** ** One window *)

Lemma zscore_window_degenerate (w : list cell) :
  (count w < 2)%nat \/ std w = Some 0 -> zscore_window w = Some 0.
Proof.
  intros [H|H]; unfold zscore_window.
  - apply Nat.ltb_lt in H. now rewrite H.
  - apply Nan_eqb_true in H. rewrite H. now rewrite orb_true_r.
Qed.

Lemma zscore_window_regular (w : list cell) :
  (2 <= count w)%nat -> std w <> Some 0 ->
  zscore_window w
  = option_map (fun v => (v - sample_mean (observations w))
                         / sample_stddev (observations w))
               (last w None).
Proof.
  intros H2 Hs. unfold zscore_window.
  destruct (Nat.ltb_spec (count w) 2); [lia|].
  destruct (Nan.eqb (std w) 0) eqn:E.
  - apply Nan_eqb_true in E. contradiction.
  - cbn [orb]. rewrite mean_sample_mean by lia.
    rewrite std_sample_stddev by lia.
    destruct (last w None); reflexivity.
Qed.

(** A window gives NaN exactly when its last entry is NaN and the window is
    not degenerate. *)
Lemma zscore_window_None (w : list cell) :
  zscore_window w = None
  <-> last w None = None /\ (2 <= count w)%nat /\ std w <> Some 0.
Proof.
  destruct (Nat.ltb_spec (count w) 2) as [Hc|Hc].
  - rewrite zscore_window_degenerate by (left; exact Hc).
    split; [discriminate|]. intros (_ & H & _). lia.
  - destruct (Nan.eqb (std w) 0) eqn:E.
    + apply Nan_eqb_true in E.
      rewrite zscore_window_degenerate by (right; exact E).
      split; [discriminate|]. intros (_ & _ & H). contradiction.
    + assert (Hs : std w <> Some 0).
      { intros A. apply Nan_eqb_true in A. congruence. }
      rewrite zscore_window_regular by assumption.
      destruct (last w None); simpl; split; try discriminate; try tauto.
      intros (A & _). discriminate.
Qed.

(** ** The loop *)

Lemma zscores_nth_error (vs : list cell) (i : nat) :
  (i < length vs)%nat ->
  nth_error (zscores vs) i = Some (zscore_window (firstn (S i) vs)).
Proof.
  intros H. unfold zscores.
  rewrite nth_error_map, nth_error_seq.
  destruct (Nat.ltb_spec i (length vs)); [reflexivity|lia].
Qed.

Lemma last_firstn (vs : list cell) (i : nat) :
  (i < length vs)%nat -> last (firstn (S i) vs) None = nth i vs None.
Proof.
  revert i. induction vs as [|v vs IH]; intros i H; simpl in H; [lia|].
  destruct i as [|i]; [reflexivity|].
  change (firstn (S (S i)) (v :: vs)) with (v :: firstn (S i) vs).
  destruct vs as [|v' vs]; simpl in H; [lia|].
  change (firstn (S i) (v' :: vs)) with (v' :: firstn i vs) at 1.
  cbn [last]. change (v' :: firstn i vs) with (firstn (S i) (v' :: vs)).
  apply IH. simpl. lia.
Qed.

Lemma rolling_zscore_rows (s : Series) :
  rolling_zscore s
  = map (fun i => (nth i (index s) 0%Z,
                   zscore_window (firstn (S i) (values s))))
        (seq 0 (length s)).
Proof.
  unfold rolling_zscore, zscores.
  assert (E : length (values s) = length s) by (unfold values; apply length_map).
  rewrite E.
  assert (I : index s = map (fun i => nth i (index s) 0%Z) (seq 0 (length s))).
  { replace (length s) with (length (index s)) by apply length_map.
    rewrite <- (map_nth_seq (fun y => y)). symmetry. apply map_id. }
  rewrite I at 1. apply combine_map_same.
Qed.

Lemma rolling_zscore_nth_error (s : Series) (i : nat) :
  (i < length s)%nat ->
  nth_error (rolling_zscore s) i
  = Some (nth i (index s) 0%Z, zscore_window (firstn (S i) (values s))).
Proof.
  intros H. rewrite rolling_zscore_rows, nth_error_map, nth_error_seq.
  destruct (Nat.ltb_spec i (length s)); [reflexivity|lia].
Qed.

(** C1.  No look-ahead: two series that agree on the positions [0..i] get
    the same normalized value (and the same year label) at position [i],
    whatever stands after [i] in either of them: altered, removed or
    appended values.  The value is a function of the series, so computing it
    again on the same series gives the same result. *)
Theorem rolling_zscore_no_look_ahead (s1 s2 : Series) (i : nat) :
  (i < length s1)%nat ->
  firstn (S i) s1 = firstn (S i) s2 ->
  exists z,
    nth_error (rolling_zscore s1) i = Some z
    /\ nth_error (rolling_zscore s2) i = Some z.
Proof.
  intros H1 E.
  assert (H2 : (i < length s2)%nat).
  { assert (L : length (firstn (S i) s1) = length (firstn (S i) s2))
      by now rewrite E.
    rewrite !length_firstn in L. lia. }
  eexists. split; [apply rolling_zscore_nth_error; exact H1|].
  rewrite rolling_zscore_nth_error by exact H2.
  assert (N : forall l : list Z, nth i l 0%Z = nth i (firstn (S i) l) 0%Z).
  { intros l. rewrite nth_firstn.
    destruct (Nat.ltb_spec i (S i)); [reflexivity|lia]. }
  unfold values, index.
  rewrite (N (map fst s1)), (N (map fst s2)), !firstn_map, E. reflexivity.
Qed.

Lemma rolling_zscore_no_look_ahead_witness :
  (1 < length Sample.s1)%nat
  /\ firstn 2 Sample.s1 = firstn 2 Sample.s2
  /\ exists z,
       nth_error (rolling_zscore Sample.s1) 1 = Some z
       /\ nth_error (rolling_zscore Sample.s2) 1 = Some z.
Proof.
  split; [simpl; lia|]. split; [reflexivity|].
  apply (rolling_zscore_no_look_ahead Sample.s1 Sample.s2 1);
    [simpl; lia|reflexivity].
Defined.

(** The entry at a position of the past does not depend on the future. *)
Corollary rolling_zscore_future (past future1 future2 : Series) (i : nat) :
  (i < length past)%nat ->
  nth_error (rolling_zscore (past ++ future1)) i
  = nth_error (rolling_zscore (past ++ future2)) i.
Proof.
  intros H.
  assert (P : forall future,
             nth_error (rolling_zscore (past ++ future)) i
             = Some (nth i (index past) 0%Z,
                     zscore_window (firstn (S i) (values past)))).
  { intros future.
    rewrite rolling_zscore_nth_error by (rewrite length_app; lia).
    unfold index, values. rewrite !map_app.
    rewrite app_nth1 by (rewrite length_map; lia).
    rewrite firstn_app, length_map.
    replace (S i - length past)%nat with 0%nat by lia.
    now rewrite app_nil_r. }
  now rewrite !P.
Qed.

(** ** Degenerate windows

    With exact numbers a window of equal values has a deviation of 0.  In
    binary64 the computed deviation of such a window need not be 0: the
    part on binary64 numbers has the series 0.1, 0.1, 0.1. *)

Lemma count_le_length (w : list cell) : (count w <= length w)%nat.
Proof. unfold count. apply filter_length_le. Qed.





(** ** Rows of the result *)

Lemma forensic_alpha_Some (b s p a : Series) (m : Z) (out : list Out.t) :
  forensic_alpha b s p a m = Some out
  <-> exists df, surviving b s p a m = Some df /\ out = blend df.
Proof.
  rewrite forensic_alpha_rows.
  destruct (surviving b s p a m) as [df|]; simpl; split.
  - intros E. exists df. split; congruence.
  - intros (df' & E & ->). congruence.
  - discriminate.
  - intros (df' & E & _). discriminate.
Qed.

Lemma length_blend (df : list Df.row) : length (blend df) = length df.
Proof. unfold blend. now rewrite length_map, length_seq. Qed.

Lemma blend_nth_error (df : list Df.row) (i : nat) (row : Out.t) :
  nth_error (blend df) i = Some row
  <-> (i < length df)%nat /\ row = blend_row df i.
Proof.
  unfold blend. rewrite nth_error_map, nth_error_seq.
  destruct (Nat.ltb_spec i (length df)); simpl; split.
  - intros E. split; [assumption|congruence].
  - intros (_ & ->). reflexivity.
  - discriminate.
  - intros (A & _). lia.
Qed.

Lemma nth_error_nth_row (df : list Df.row) (i : nat) (r : Df.row) :
  nth_error df i = Some r -> nth i df nan_row = r.
Proof. intros H. now apply nth_error_nth. Qed.


(** ** Null entries of [signals] *)


Section Window.

(** One metric [f], at a position [i] of [df]. *)
Variable f : Four.t cell -> cell.
Variable df : list Df.row.
Variable i : nat.
Hypothesis Hi : (i < length df)%nat.

(** The last entry of the window at [i] is the entry of row [i]. *)
Lemma last_window :
  last (window f df i) None = f (Df.cells (nth i df nan_row)).
Proof.
  unfold window.
  rewrite last_firstn by (now rewrite length_values_column).
  rewrite values_column.
  rewrite (nth_indep _ None (f (Df.cells nan_row)))
    by (now rewrite length_map).
  apply (map_nth (fun r => f (Df.cells r))).
Qed.

Lemma window_signal_None :
  zscore_window (window f df i) = None
  <-> f (Df.cells (nth i df nan_row)) = None
      /\ (2 <= length (observations (window f df i)))%nat
      /\ sample_stddev (observations (window f df i)) <> 0.
Proof.
  rewrite zscore_window_None, last_window.
  rewrite <- count_observations.
  split; intros (A & B & C); repeat split; try assumption.
  - rewrite std_sample_stddev in C by exact B. congruence.
  - rewrite std_sample_stddev by exact B. congruence.
Qed.

Lemma signal_value_nth_error :
  nth_error (values (rolling_zscore (Df.column f df))) i
  = Some (zscore_window (window f df i)).
Proof.
  rewrite values_rolling_zscore.
  apply zscores_nth_error. now rewrite length_values_column.
Qed.

Lemma neg_signal_value_nth_error :
  nth_error (values (neg_series (rolling_zscore (Df.column f df)))) i
  = Some (Nan.neg (zscore_window (window f df i))).
Proof.
  now rewrite values_neg_series, nth_error_map, signal_value_nth_error.
Qed.

End Window.


Lemma sample_missing_2020 :
  surviving Sample.missing_2020 Sample.one_2020 Sample.one_2020
            Sample.one_2020 3
  = Some Sample.df_missing_2020.
Proof. reflexivity. Qed.

Lemma sample_missing_2020_out :
  forensic_alpha Sample.missing_2020 Sample.one_2020 Sample.one_2020
                 Sample.one_2020 3
  = Some (blend Sample.df_missing_2020).
Proof. now rewrite forensic_alpha_rows, sample_missing_2020. Qed.

(** C4 as stated fails: in a single year in which [beneish] is missing and
    the three other scores are present, the row survives, the window of
    [beneish] is degenerate, and [beneish_signal] is the number 0 (negated),
    not null. *)
Lemma null_iff_source_null_fails :
  ~ null_iff_source_null Sample.missing_2020 Sample.one_2020 Sample.one_2020
      Sample.one_2020 3.
Proof.
  intros H.
  specialize (H (blend Sample.df_missing_2020) Sample.df_missing_2020 0%nat
                (blend_row Sample.df_missing_2020 0)
                (Df.mk 2020 (Four.mk None (Some 1) (Some 1) (Some 1)) 3)
                sample_missing_2020_out sample_missing_2020 eq_refl eq_refl
                Four.beneish Out.beneish_signal (or_introl eq_refl)).
  destruct H as [_ H]. specialize (H eq_refl). discriminate H.
Qed.

(** The entry is the number 0, negated. *)
Example missing_2020_signal :
  Out.beneish_signal (blend_row Sample.df_missing_2020 0) = Some (- 0).
Proof. reflexivity. Qed.

(** ** The blend of one row *)

Lemma replace_0_nan_nonzero (x : R) : x <> 0 -> replace_0_nan x = Some x.
Proof.
  intros H. unfold replace_0_nan. apply Reqb_false in H. now rewrite H.
Qed.

Lemma replace_0_nan_zero : replace_0_nan 0 = None.
Proof.
  unfold replace_0_nan. now rewrite (proj2 (Reqb_true 0 0) eq_refl).
Qed.


Lemma normalized_weight_zero (sg : Four.t cell) :
  normalized_weight (weighted_row sg) = 0
  <-> sg = Four.mk None None None None.
Proof.
  four_cases sg; split; intros H; try discriminate H; try reflexivity;
    try lra.
Qed.


Lemma alpha_row_blend_formula (sg : Four.t cell) :
  alpha_row sg = blend_formula sg.
Proof.
  unfold alpha_row.
  destruct (Req_dec_T (normalized_weight (weighted_row sg)) 0) as [Z|NZ].
  - rewrite Z, replace_0_nan_zero.
    apply normalized_weight_zero in Z. subst sg. reflexivity.
  - rewrite replace_0_nan_nonzero by exact NZ.
    revert NZ. four_cases sg; intros NZ;
      try (exfalso; apply NZ; lra);
      unfold blend_formula, present, base_weights;
      cbn [Four.to_list Four.beneish Four.sloan Four.piotroski Four.altman
           combine flat_map fst snd app map Rsum fold_right Nan.div Nan.lift2];
      (f_equal; unfold Rdiv; f_equal; solve [lra | f_equal; lra]).
Qed.

Lemma alpha_row_None (sg : Four.t cell) :
  alpha_row sg = None <-> normalized_weight (weighted_row sg) = 0.
Proof.
  unfold alpha_row.
  destruct (Req_dec_T (normalized_weight (weighted_row sg)) 0) as [Z|NZ].
  - rewrite Z, replace_0_nan_zero. simpl. tauto.
  - rewrite replace_0_nan_nonzero by exact NZ. simpl.
    split; [discriminate|contradiction].
Qed.

Lemma signals_of_blend_row (df : list Df.row) (i : nat) :
  signals_of (blend_row df i) = signals_at df i.
Proof. reflexivity. Qed.

Lemma forensic_alpha_blend_row (df : list Df.row) (i : nat) :
  Out.forensic_alpha (blend_row df i)
  = option_map round4 (alpha_row (signals_at df i)).
Proof. reflexivity. Qed.




Lemma sample_stddev_nonzero (xs : list R) :
  0 < Rsum (map (fun x => Rsqr (x - sample_mean xs)) xs)
      / (INR (length xs) - 1) ->
  sample_stddev xs <> 0.
Proof.
  intros H. apply Rgt_not_eq. unfold sample_stddev. now apply sqrt_lt_R0.
Qed.



(** ** Rows with at least one present score *)



(** ** A row without any score *)

Lemma sample_stddev_1_2 : sample_stddev [1; 2] <> 0.
Proof.
  apply sample_stddev_nonzero. unfold sample_mean, Rsqr. simpl. lra.
Qed.

Lemma sample_empty_2022 :
  surviving Sample.late_gap_3y Sample.late_gap_3y Sample.late_gap_3y
            Sample.late_gap_3y 0
  = Some Sample.df_empty_2022.
Proof. reflexivity. Qed.

Lemma sample_empty_2022_signals :
  signals_at Sample.df_empty_2022 2 = Four.mk None None None None.
Proof.
  unfold signals_at.
  repeat match goal with
    | |- context [zscore_window (window ?f Sample.df_empty_2022 2)] =>
        replace (zscore_window (window f Sample.df_empty_2022 2))
          with (@None R)
          by (symmetry; apply window_signal_None; [simpl; lia|];
              split; [reflexivity|]; split; [simpl; lia|];
              exact sample_stddev_1_2)
    end.
  reflexivity.
Qed.

(** C3, on the program.  A call with [min_signals = 0] on four series that
    all lack 2022: the row of 2022 survives, its four signals are null, its
    [forensic_alpha] is null, and its label is "Neutral": [label] has no case
    for a null alpha, whose comparisons all fail. *)
Theorem null_alpha_labelled_neutral :
  label None = "Neutral"%string
  /\ exists out row,
       forensic_alpha Sample.late_gap_3y Sample.late_gap_3y
                      Sample.late_gap_3y Sample.late_gap_3y 0 = Some out
       /\ nth_error out 2 = Some row
       /\ Out.year row = 2022%Z
       /\ Out.signal_count row = 0%Z
       /\ Out.forensic_alpha row = None
       /\ Out.signal row = "Neutral"%string.
Proof.
  split; [reflexivity|].
  exists (blend Sample.df_empty_2022), (blend_row Sample.df_empty_2022 2).
  split; [now rewrite forensic_alpha_rows, sample_empty_2022|].
  split; [reflexivity|]. split; [reflexivity|]. split; [reflexivity|].
  assert (A : Out.forensic_alpha (blend_row Sample.df_empty_2022 2) = None).
  { rewrite forensic_alpha_blend_row, sample_empty_2022_signals.
    rewrite (proj2 (alpha_row_None _)); [reflexivity|].
    now apply normalized_weight_zero. }
  split; [exact A|].
  change (Out.signal (blend_row Sample.df_empty_2022 2))
    with (label (Out.forensic_alpha (blend_row Sample.df_empty_2022 2))).
  now rewrite A.
Qed.

(** ** Labels *)

(** C8.  Label boundaries.  The label of a non-null alpha follows strict
    thresholds: above 1 "Strong Positive", above 0.3 "Positive", below -1
    "Strong Negative", below -0.3 "Negative", and "Neutral" otherwise; so 1
    is "Positive", 1.0001 "Strong Positive", 0.3 and -0.3 "Neutral" and
    -0.3001 "Negative".  The column [signal] of the result is this label of
    the rounded [forensic_alpha] of its row. *)
Theorem label_boundaries :
  (forall x, 1 < x -> label (Some x) = "Strong Positive"%string)
  /\ (forall x, 3 / 10 < x <= 1 -> label (Some x) = "Positive"%string)
  /\ (forall x, x < -1 -> label (Some x) = "Strong Negative"%string)
  /\ (forall x, -1 <= x < - (3 / 10) -> label (Some x) = "Negative"%string)
  /\ (forall x, - (3 / 10) <= x <= 3 / 10 ->
                label (Some x) = "Neutral"%string)
  /\ label (Some 1) = "Positive"%string
  /\ label (Some (10001 / 10000)) = "Strong Positive"%string
  /\ label (Some (3 / 10)) = "Neutral"%string
  /\ label (Some (- (3 / 10))) = "Neutral"%string
  /\ label (Some (- (3001 / 10000))) = "Negative"%string
  /\ (forall b s p a m out i row,
         forensic_alpha b s p a m = Some out ->
         nth_error out i = Some row ->
         Out.signal row = label (Out.forensic_alpha row)).
Proof.
  repeat split; try (intros x H; label_cases); try label_cases.
  intros b s p a m out i row Hout Hrow.
  apply forensic_alpha_Some in Hout. destruct Hout as (df & _ & ->).
  apply blend_nth_error in Hrow. destruct Hrow as (_ & ->). reflexivity.
Qed.

Lemma label_boundaries_witness :
  1 < 2 /\ label (Some 2) = "Strong Positive"%string.
Proof.
  split; [lra|].
  destruct label_boundaries as (H & _). apply (H 2). lra.
Defined.

(** ** The rows that survive *)

Lemma filter_assign_signal_count (m : Z) (frame : list Frame.row) :
  filter (fun r => (m <=? Df.signal_count r)%Z)
         (map assign_signal_count frame)
  = map assign_signal_count
        (filter (fun r => (m <=? notna_count (Frame.cells r))%Z) frame).
Proof.
  induction frame as [|r frame IH]; [reflexivity|].
  cbn [map filter]. cbn [assign_signal_count Df.signal_count].
  destruct (m <=? notna_count (Frame.cells r))%Z; cbn [map]; now rewrite IH.
Qed.

Lemma year_blend (df : list Df.row) : map Out.year (blend df) = map Df.year df.
Proof.
  unfold blend. rewrite map_map. cbn [blend_row Out.year].
  symmetry. apply map_nth_seq.
Qed.

Lemma signal_count_blend (df : list Df.row) :
  map Out.signal_count (blend df) = map Df.signal_count df.
Proof.
  unfold blend. rewrite map_map. cbn [blend_row Out.signal_count].
  symmetry. apply map_nth_seq.
Qed.

(** C6.  Minimum-signal exclusion.  The count of a year is the number of its
    non-null scores; the result has exactly the years whose count reaches
    [min_signals], in the order of the assembled table, each with its count;
    it is computed from those rows alone; and when no year is kept it is the
    empty table. *)
Theorem minimum_signal_exclusion (b s p a : Series) (m : Z)
    (frame : list Frame.row) :
  DataFrame b s p a = Some frame ->
  let kept :=
    filter (fun r => (m <=? notna_count (Frame.cells r))%Z) frame in
  exists out,
    forensic_alpha b s p a m = Some out
    /\ map Out.year out = map Frame.year kept
    /\ map Out.signal_count out
       = map (fun r => notna_count (Frame.cells r)) kept
    /\ out = blend (map assign_signal_count kept)
    /\ (kept = [] -> out = []).
Proof.
  intros Hf kept.
  exists (blend (map assign_signal_count kept)).
  split.
  - rewrite forensic_alpha_rows. unfold surviving. rewrite Hf.
    cbn [option_map]. now rewrite filter_assign_signal_count.
  - rewrite year_blend, signal_count_blend, !map_map.
    repeat split. intros ->. reflexivity.
Qed.

Lemma sample_frame_5y :
  DataFrame Sample.beneish_5y Sample.sloan_5y Sample.piotroski_5y
            Sample.altman_5y
  = Some Sample.frame_5y.
Proof. reflexivity. Qed.

Lemma minimum_signal_exclusion_witness :
  DataFrame Sample.beneish_5y Sample.sloan_5y Sample.piotroski_5y
            Sample.altman_5y
  = Some Sample.frame_5y
  /\ map (fun r => notna_count (Frame.cells r)) Sample.frame_5y
     = [4; 2; 4; 1; 3]%Z
  /\ exists out,
       forensic_alpha Sample.beneish_5y Sample.sloan_5y Sample.piotroski_5y
                      Sample.altman_5y 3 = Some out
       /\ map Out.year out = [2019; 2021; 2023]%Z
       /\ map Out.signal_count out = [4; 4; 3]%Z.
Proof.
  split; [exact sample_frame_5y|]. split; [reflexivity|].
  destruct (minimum_signal_exclusion _ _ _ _ 3 _ sample_frame_5y)
    as (out & E & Y & C & _).
  exists out. split; [exact E|]. split; [exact Y|exact C].
Defined.

(** No year reaches four scores when [altman] is never present: the result
    is the empty table. *)
Example no_row_survives :
  forensic_alpha Sample.full_3y Sample.full_3y Sample.full_3y
                 [(2020%Z, None); (2021%Z, None); (2022%Z, None)] 4
  = Some [].
Proof. reflexivity. Qed.

(** The result depends on the inputs through the surviving rows only. *)
Corollary forensic_alpha_surviving_only (b s p a b' s' p' a' : Series)
    (m m' : Z) :
  surviving b s p a m = surviving b' s' p' a' m' ->
  forensic_alpha b s p a m = forensic_alpha b' s' p' a' m'.
Proof. intros E. now rewrite !forensic_alpha_rows, E. Qed.

(** ** The order of the years *)

Lemma insert_In (x y : Z) (l : list Z) :
  In y (insert x l) <-> y = x \/ In y l.
Proof.
  induction l as [|z l IH]; simpl.
  - intuition congruence.
  - destruct (x <=? z)%Z; simpl; rewrite ?IH; intuition congruence.
Qed.

Lemma insert_ascending (x : Z) (l : list Z) :
  ascending l -> ~ In x l -> ascending (insert x l).
Proof.
  unfold ascending. induction l as [|z l IH]; intros Hs Hx; simpl.
  - constructor; constructor.
  - apply StronglySorted_inv in Hs. destruct Hs as (Hs & Hz).
    destruct (Z.leb_spec x z) as [L|L].
    + assert (x < z)%Z by (simpl in Hx; lia).
      constructor; [constructor; assumption|].
      constructor; [assumption|].
      eapply Forall_impl; [|exact Hz]. simpl. intros; lia.
    + constructor.
      * apply IH; [exact Hs|]. simpl in Hx. tauto.
      * apply Forall_forall. intros y Hy. apply insert_In in Hy.
        destruct Hy as [->|Hy]; [lia|].
        rewrite Forall_forall in Hz. now apply Hz.
Qed.

Lemma sort_values_In (y : Z) (l : list Z) : In y (sort_values l) <-> In y l.
Proof.
  unfold sort_values. induction l as [|x l IH]; simpl; [tauto|].
  rewrite insert_In, IH. intuition congruence.
Qed.

Lemma sort_values_ascending (l : list Z) :
  NoDup l -> ascending (sort_values l).
Proof.
  unfold sort_values. induction l as [|x l IH]; intros H; simpl.
  - constructor.
  - inversion H as [|? ? Hx Hl]; subst.
    apply insert_ascending; [now apply IH|].
    fold (sort_values l). now rewrite sort_values_In.
Qed.

Lemma unique_In (y : Z) (l : list Z) : In y (unique l) <-> In y l.
Proof.
  induction l as [|x l IH]; simpl; [tauto|].
  rewrite filter_In, IH.
  destruct (Z.eqb_spec y x); simpl; intuition congruence.
Qed.

Lemma unique_NoDup (l : list Z) : NoDup (unique l).
Proof.
  induction l as [|x l IH]; simpl; constructor.
  - rewrite filter_In, Z.eqb_refl. simpl. intros (_ & A). discriminate.
  - now apply NoDup_filter.
Qed.

Lemma zip_rows_years (idx : list Z) (cb cs cp ca : list cell) :
  length cb = length idx -> length cs = length idx ->
  length cp = length idx -> length ca = length idx ->
  map Frame.year (zip_rows idx cb cs cp ca) = idx.
Proof.
  revert cb cs cp ca.
  induction idx as [|y idx IH]; intros [|b cb] [|s cs] [|p cp] [|a ca];
    simpl; intros Hb Hs Hp Ha; try reflexivity; try discriminate.
  f_equal. apply IH; congruence.
Qed.

Lemma ascending_filter {A : Type} (year : A -> Z) (keep : A -> bool)
    (l : list A) :
  ascending (map year l) -> ascending (map year (filter keep l)).
Proof.
  unfold ascending. induction l as [|x l IH]; simpl; intros H; [constructor|].
  apply StronglySorted_inv in H. destruct H as (Hs & Hx).
  destruct (keep x); simpl; [|now apply IH].
  constructor; [now apply IH|].
  rewrite Forall_forall in *. intros y Hy. apply Hx.
  apply in_map_iff in Hy. destruct Hy as (r & <- & Hr).
  apply filter_In in Hr. apply in_map. tauto.
Qed.

Lemma length_index_values (s : Series) : length (values s) = length (index s).
Proof. unfold values, index. now rewrite !length_map. Qed.

(** The years of the assembled table: the shared index when the four
    indexes are equal, and otherwise their union, sorted. *)
Lemma DataFrame_years (b s p a : Series) (frame : list Frame.row) :
  DataFrame b s p a = Some frame ->
  (index s = index b /\ index p = index b /\ index a = index b
   /\ map Frame.year frame = index b)
  \/ (~ (index s = index b /\ index p = index b /\ index a = index b)
      /\ map Frame.year frame
         = sort_values (unique (index b ++ index s ++ index p ++ index a))).
Proof.
  unfold DataFrame.
  destruct (same_index (index b) (index s)) eqn:Es;
    [destruct (same_index (index b) (index p)) eqn:Ep;
     [destruct (same_index (index b) (index a)) eqn:Ea|]|];
    cbn [andb].
  1: { apply same_index_true in Es, Ep, Ea. intros E. injection E as <-.
       left. repeat split; try congruence.
       apply zip_rows_years; rewrite length_index_values; congruence. }
  all: assert (D : ~ (index s = index b /\ index p = index b
                      /\ index a = index b))
         by (intros (A1 & A2 & A3);
             rewrite <- ?A1, <- ?A2, <- ?A3, same_index_refl in *;
             discriminate).
  all: unfold reindex;
    destruct (is_unique (index b)); [|discriminate];
    destruct (is_unique (index s)); [|discriminate];
    destruct (is_unique (index p)); [|discriminate];
    destruct (is_unique (index a)); [|discriminate];
    intros E; injection E as <-; right; split; [exact D|];
    apply zip_rows_years; apply length_map.
Qed.

(** C9, as the program has it.  The rows of the result are the rows of the
    assembled table that pass the filter, in the order of that table: the
    program never sorts.  The assembled table carries the shared index as it
    is when the four series have one and the same index, whatever its order,
    and the sorted union of the year keys otherwise.  So the years of the
    result are in the order of the shared index, or ascending when there is
    none; they are ascending for every input but one kind: four series
    that carry the same index, not in ascending order. *)
Theorem output_year_order (b s p a : Series) (m : Z) (out : list Out.t) :
  forensic_alpha b s p a m = Some out ->
  exists frame,
    DataFrame b s p a = Some frame
    /\ map Out.year out
       = map Frame.year
           (filter (fun r => (m <=? notna_count (Frame.cells r))%Z) frame)
    /\ (index s = index b /\ index p = index b /\ index a = index b ->
        map Frame.year frame = index b)
    /\ (~ (index s = index b /\ index p = index b /\ index a = index b) ->
        map Frame.year frame
        = sort_values (unique (index b ++ index s ++ index p ++ index a))
        /\ ascending (map Out.year out))
    /\ ((index s = index b -> index p = index b -> index a = index b ->
         ascending (index b)) ->
        ascending (map Out.year out)).
Proof.
  intros Hout.
  apply forensic_alpha_Some in Hout. destruct Hout as (df & Hdf & ->).
  unfold surviving in Hdf.
  destruct (DataFrame b s p a) as [frame|] eqn:Hf; [|discriminate].
  injection Hdf as <-.
  exists frame. split; [reflexivity|].
  assert (Y : map Out.year
                (blend (filter (fun r => (m <=? Df.signal_count r)%Z)
                               (map assign_signal_count frame)))
              = map Frame.year
                  (filter (fun r => (m <=? notna_count (Frame.cells r))%Z)
                          frame)).
  { rewrite year_blend, filter_assign_signal_count. now rewrite map_map. }
  assert (A : ascending (map Frame.year frame) ->
              ascending
                (map Out.year
                   (blend (filter (fun r => (m <=? Df.signal_count r)%Z)
                                  (map assign_signal_count frame))))).
  { intros H. rewrite Y. now apply (ascending_filter Frame.year). }
  split; [exact Y|].
  destruct (DataFrame_years _ _ _ _ _ Hf) as [(A1 & A2 & A3 & E)|(D & E)].
  - split; [intros _; exact E|]. split.
    + intros N. exfalso. apply N. tauto.
    + intros H. apply A. rewrite E. now apply H.
  - assert (S : ascending (map Frame.year frame)).
    { rewrite E. apply sort_values_ascending, unique_NoDup. }
    split; [intros H; contradiction|]. split.
    + intros _. split; [exact E|now apply A].
    + intros _. now apply A.
Qed.

Lemma output_year_order_witness :
  forensic_alpha Sample.beneish_5y Sample.sloan_5y Sample.piotroski_5y
                 Sample.altman_5y 3
  = Some (blend (map assign_signal_count
                     (filter (fun r => (3 <=? notna_count (Frame.cells r))%Z)
                             Sample.frame_5y)))
  /\ ascending (index Sample.beneish_5y)
  /\ ascending
       (map Out.year
            (blend (map assign_signal_count
                      (filter (fun r => (3 <=? notna_count (Frame.cells r))%Z)
                              Sample.frame_5y)))).
Proof.
  assert (E : forensic_alpha Sample.beneish_5y Sample.sloan_5y
                Sample.piotroski_5y Sample.altman_5y 3
              = Some (blend (map assign_signal_count
                               (filter (fun r => (3 <=? notna_count
                                                          (Frame.cells r))%Z)
                                       Sample.frame_5y)))) by reflexivity.
  assert (A : ascending (index Sample.beneish_5y)).
  { unfold ascending. simpl.
    repeat (constructor; [|repeat (constructor; try lia)]). constructor. }
  split; [exact E|]. split; [exact A|].
  destruct (output_year_order _ _ _ _ _ _ E) as (frame & _ & _ & _ & _ & H).
  apply H. intros _ _ _. exact A.
Defined.

(** C9 as stated fails: four series that share the index 2021, 2020 give a
    result whose rows are 2021 and then 2020. *)
Lemma descending_index_kept :
  exists out,
    forensic_alpha Sample.descending_2y Sample.descending_2y
                   Sample.descending_2y Sample.descending_2y 3 = Some out
    /\ map Out.year out = [2021; 2020]%Z
    /\ ~ ascending (map Out.year out).
Proof.
  exists (blend Sample.df_descending).
  split; [reflexivity|]. split; [reflexivity|].
  intros H. change (map Out.year (blend Sample.df_descending))
              with [2021; 2020]%Z in H.
  apply StronglySorted_inv in H. destruct H as (_ & H).
  apply Forall_inv in H. lia.
Qed.

(** ** Rounding *)

Lemma Rabs_bound (x a : R) : Rabs x <= a -> - a <= x <= a.
Proof. unfold Rabs. destruct (Rcase_abs x); lra. Qed.

Lemma rint_near (x : R) : Rabs (x - IZR (rint x)) <= 1 / 2.
Proof.
  unfold rint.
  pose proof (Rplus_Int_part_frac_part x) as E.
  destruct (base_fp x) as (F0 & F1).
  set (n := Int_part x) in *. set (f := frac_part x) in *.
  assert (A : x - IZR n = f) by lra.
  assert (B : x - IZR (n + 1) = f - 1) by (rewrite plus_IZR; lra).
  destruct (Rltb f (1 / 2)) eqn:L1.
  - apply Rltb_true in L1. rewrite A. apply Rabs_le. lra.
  - apply Rltb_false in L1.
    destruct (Rltb (1 / 2) f) eqn:L2.
    + rewrite B. apply Rabs_le. lra.
    + apply Rltb_false in L2.
      destruct (Z.even n).
      * rewrite A. apply Rabs_le. lra.
      * rewrite B. apply Rabs_le. lra.
Qed.

Lemma rint_unique (x : R) (k : Z) : Rabs (x - IZR k) < 1 / 2 -> rint x = k.
Proof.
  intros H. pose proof (rint_near x) as N.
  apply Rabs_def2 in H. apply Rabs_bound in N.
  assert (L : IZR (rint x) - IZR k < 1) by lra.
  assert (U : IZR k - IZR (rint x) < 1) by lra.
  rewrite <- minus_IZR in L, U.
  apply lt_IZR in L, U. lia.
Qed.

Lemma round4_near (x : R) :
  exists k, round4 x = IZR k / 10000 /\ Rabs (x - round4 x) <= 1 / 20000.
Proof.
  exists (rint (x * 10000)). split; [reflexivity|].
  unfold round4. pose proof (rint_near (x * 10000)) as N.
  apply Rabs_bound in N. apply Rabs_le. lra.
Qed.

Lemma round4_unique (x : R) (k : Z) :
  Rabs (x - IZR k / 10000) < 1 / 20000 -> round4 x = IZR k / 10000.
Proof.
  intros H. unfold round4. rewrite (rint_unique _ k); [reflexivity|].
  apply Rabs_def2 in H. apply Rabs_def1; lra.
Qed.

(** Half-way between two integers the even one is taken. *)
Lemma rint_tie (n : Z) :
  rint (IZR n + 1 / 2) = if Z.even n then n else (n + 1)%Z.
Proof.
  destruct (Int_part_frac_part_spec (IZR n + 1 / 2) n (1 / 2)) as (En & Ef);
    [lra|reflexivity|].
  unfold rint. rewrite <- En, <- Ef.
  rewrite (proj2 (Rltb_false (1 / 2) (1 / 2))) by lra.
  reflexivity.
Qed.



(** C10 as stated fails: 0.00004 and 0.00006 have the same digits through
    the fourth decimal place, 0.0000, and round to 0 and to 0.0001. *)
Lemma same_decimals_round_apart :
  decimals4 (4 / 100000) = decimals4 (6 / 100000)
  /\ round4 (4 / 100000) = 0
  /\ round4 (6 / 100000) = 1 / 10000
  /\ round4 (4 / 100000) <> round4 (6 / 100000).
Proof.
  assert (D : forall x, 0 <= x < 1 / 10000 -> decimals4 x = (false, 0%Z)).
  { intros x Hx. unfold decimals4. f_equal.
    - apply Rltb_false. lra.
    - symmetry. apply Int_part_spec. rewrite Rabs_pos_eq by lra. lra. }
  assert (R4 : round4 (4 / 100000) = 0).
  { rewrite (round4_unique _ 0); [lra|]. apply Rabs_def1; lra. }
  assert (R6 : round4 (6 / 100000) = 1 / 10000).
  { rewrite (round4_unique _ 1); [lra|]. apply Rabs_def1; lra. }
  split; [rewrite !D by lra; reflexivity|].
  split; [exact R4|]. split; [exact R6|].
  rewrite R4, R6. lra.
Qed.

(** ** Two inputs on either side of a rounding boundary *)





Lemma alpha_row_piotroski_only (z : R) :
  alpha_row (Four.mk (Some (- 0)) (Some (- 0)) (Some z) (Some 0))
  = Some (z / 4).
Proof.
  rewrite alpha_row_blend_formula.
  unfold blend_formula, present, base_weights. simpl. f_equal. lra.
Qed.


Lemma sample_df_x :
  surviving Sample.ones_3y Sample.ones_3y Sample.piotroski_x Sample.ones_3y 3
  = Some Sample.df_x.
Proof. reflexivity. Qed.



(** ** The assembled table *)

Lemma is_unique_NoDup (l : list Z) : is_unique l = true <-> NoDup l.
Proof.
  induction l as [|x l IH]; simpl.
  - split; [constructor|reflexivity].
  - rewrite andb_true_iff, negb_true_iff, IH. split.
    + intros (A & B). constructor; [|exact B].
      intros Hin. assert (E : existsb (Z.eqb x) l = true).
      { apply existsb_exists. exists x. split; [exact Hin|apply Z.eqb_refl]. }
      congruence.
    + intros H. inversion H as [|? ? Hx Hl]; subst. split; [|exact Hl].
      destruct (existsb (Z.eqb x) l) eqn:E; [|reflexivity].
      apply existsb_exists in E. destruct E as (y & Hy & Exy).
      apply Z.eqb_eq in Exy. subst y. contradiction.
Qed.

(** Series without a repeated year always give a table. *)
Lemma DataFrame_defined (b s p a : Series) :
  NoDup (index b) -> NoDup (index s) -> NoDup (index p) -> NoDup (index a) ->
  exists frame, DataFrame b s p a = Some frame.
Proof.
  intros Hb Hs Hp Ha. apply is_unique_NoDup in Hb, Hs, Hp, Ha.
  unfold DataFrame, reindex. rewrite Hb, Hs, Hp, Ha.
  destruct (_ && _); eexists; reflexivity.
Qed.

(** Different indexes: the table has the sorted union of the years, and NaN
    where a series lacks the year. *)
Example DataFrame_union :
  DataFrame Sample.years_20_21 Sample.years_22_20 Sample.years_20_21
            Sample.years_20_21
  = Some [Frame.mk 2020 (Four.mk (Some 1) (Some 5) (Some 1) (Some 1));
          Frame.mk 2021 (Four.mk (Some 2) None (Some 2) (Some 2));
          Frame.mk 2022 (Four.mk None (Some 6) None None)].
Proof. reflexivity. Qed.

(** A repeated year in series with different indexes: no table. *)
Example DataFrame_repeated_year :
  DataFrame [(2020%Z, Some 1); (2020%Z, Some 2)] Sample.years_20_21
            Sample.years_20_21 Sample.years_20_21
  = None.
Proof. reflexivity. Qed.

(** Three years with [altman] missing in 2022: in that year exactly the
    signal of [altman] is null. *)
Example late_gap_one_null :
  exists w x y,
    signals_of (blend_row Sample.df_late_gap 2)
    = Four.mk (Some w) (Some x) (Some y) None.
Proof.
  rewrite signals_of_blend_row. unfold signals_at.
  replace (zscore_window (window Four.altman Sample.df_late_gap 2))
    with (@None R)
    by (symmetry; apply window_signal_None; [simpl; lia|];
        split; [reflexivity|]; split; [simpl; lia|];
        exact sample_stddev_1_2).
  assert (N : forall f,
             last (window f Sample.df_late_gap 2) None <> None ->
             exists z, zscore_window (window f Sample.df_late_gap 2) = Some z).
  { intros f Hl.
    destruct (zscore_window (window f Sample.df_late_gap 2)) as [z|] eqn:E;
      [now exists z|].
    apply zscore_window_None in E. tauto. }
  destruct (N Four.beneish) as (zb & ->); [discriminate|].
  destruct (N Four.sloan) as (zs & ->); [discriminate|].
  destruct (N Four.piotroski) as (zp & ->); [discriminate|].
  now exists (- zb), (- zs), zp.
Qed.

(** * The computation on binary64 numbers *)

Section Binary64.
Import PrimFloat.

(** ** What IEEE 754 gives: NaN and finite numbers *)

Lemma is_nan_Prim2SF (x : float) :
  is_nan x = true <-> FloatOps.Prim2SF x = SpecFloat.S754_nan.
Proof.
  unfold FloatOps.Prim2SF.
  destruct (is_nan x); [tauto|].
  split; [discriminate|].
  destruct (is_zero x); [discriminate|].
  destruct (is_infinity x); [discriminate|].
  destruct (FloatOps.Z.frexp x) as [r e].
  destruct (SpecFloat.shr_fexp _ _ _ _ _) as [sh e'].
  destruct (SpecFloat.shr_m sh); discriminate.
Qed.

Lemma is_nan_false_Prim2SF (x : float) :
  is_nan x = false <-> FloatOps.Prim2SF x <> SpecFloat.S754_nan.
Proof.
  rewrite <- is_nan_Prim2SF. destruct (is_nan x); split; congruence.
Qed.

Lemma sub_nan_l (x y : float) : is_nan x = true -> is_nan (x - y) = true.
Proof.
  rewrite !is_nan_Prim2SF, FloatAxioms.sub_spec. intros ->. reflexivity.
Qed.

Lemma div_nan_l (x y : float) : is_nan x = true -> is_nan (x / y) = true.
Proof.
  rewrite !is_nan_Prim2SF, FloatAxioms.div_spec. intros ->. reflexivity.
Qed.

Lemma div_nan_r (x y : float) : is_nan y = true -> is_nan (x / y) = true.
Proof.
  rewrite !is_nan_Prim2SF, FloatAxioms.div_spec. intros ->.
  destruct (FloatOps.Prim2SF x); reflexivity.
Qed.

Lemma is_nan_opp (x : float) : is_nan (- x) = is_nan x.
Proof.
  apply eq_true_iff_eq.
  rewrite !is_nan_Prim2SF, FloatAxioms.opp_spec.
  destruct (FloatOps.Prim2SF x); simpl; split; congruence.
Qed.

Lemma is_finite_Prim2SF (x : float) :
  is_finite x = true -> SFfinite (FloatOps.Prim2SF x).
Proof.
  unfold is_finite, FloatOps.Prim2SF.
  destruct (is_nan x); [discriminate|].
  destruct (is_zero x); [simpl; tauto|].
  destruct (is_infinity x); [discriminate|]. intros _.
  destruct (FloatOps.Z.frexp x) as [r e].
  destruct (SpecFloat.shr_fexp _ _ _ _ _) as [sh e'].
  destruct (SpecFloat.shr_m sh); exact I.
Qed.

Lemma shr_1_nonneg (mrs : SpecFloat.shr_record) :
  (0 <= SpecFloat.shr_m mrs)%Z -> (0 <= SpecFloat.shr_m (SpecFloat.shr_1 mrs))%Z.
Proof.
  destruct mrs as [m r s]. simpl.
  destruct m as [|[p|p|]|[p|p|]]; simpl; lia.
Qed.

Lemma iter_shr_1_nonneg (p : positive) (mrs : SpecFloat.shr_record) :
  (0 <= SpecFloat.shr_m mrs)%Z ->
  (0 <= SpecFloat.shr_m (SpecFloat.iter_pos SpecFloat.shr_1 p mrs))%Z.
Proof.
  revert mrs. induction p as [p IH|p IH|]; intros mrs H; simpl.
  - apply IH, IH, shr_1_nonneg, H.
  - apply IH, IH, H.
  - apply shr_1_nonneg, H.
Qed.

Lemma shr_fexp_nonneg (m e : Z) (l : SpecFloat.location) :
  (0 <= m)%Z ->
  (0 <= SpecFloat.shr_m (fst (SpecFloat.shr_fexp FloatOps.prec FloatOps.emax m e l)))%Z.
Proof.
  intros H. unfold SpecFloat.shr_fexp, SpecFloat.shr.
  assert (R : (0 <= SpecFloat.shr_m (SpecFloat.shr_record_of_loc m l))%Z).
  { destruct l as [|[| |]]; exact H. }
  destruct (_ - e)%Z; simpl; try exact R.
  apply iter_shr_1_nonneg, R.
Qed.

Lemma round_nearest_even_nonneg (m : Z) (l : SpecFloat.location) :
  (0 <= m)%Z -> (0 <= SpecFloat.round_nearest_even m l)%Z.
Proof.
  intros H. destruct l as [|[| |]]; simpl; try lia.
  destruct (Z.even m); lia.
Qed.

Lemma binary_round_aux_not_nan (sx : bool) (mx ex : Z) (lx : SpecFloat.location) :
  (0 <= mx)%Z ->
  SpecFloat.binary_round_aux FloatOps.prec FloatOps.emax sx mx ex lx <> SpecFloat.S754_nan.
Proof.
  intros H. unfold SpecFloat.binary_round_aux.
  pose proof (shr_fexp_nonneg mx ex lx H) as A.
  destruct (SpecFloat.shr_fexp _ _ mx ex lx) as [mrs' e']. simpl in A.
  pose proof (shr_fexp_nonneg _ e' SpecFloat.loc_Exact
                (round_nearest_even_nonneg _ (SpecFloat.loc_of_shr_record mrs') A)) as B.
  destruct (SpecFloat.shr_fexp _ _ _ e' _) as [mrs'' e'']. simpl in B.
  destruct (SpecFloat.shr_m mrs''); try discriminate.
  - destruct (_ <=? _)%Z; discriminate.
  - lia.
Qed.

Lemma binary_normalize_not_nan (m e : Z) (sz : bool) :
  SpecFloat.binary_normalize FloatOps.prec FloatOps.emax m e sz <> SpecFloat.S754_nan.
Proof.
  unfold SpecFloat.binary_normalize, SpecFloat.binary_round.
  destruct m as [|p|p]; [discriminate| |];
    destruct (SpecFloat.shl_align _ _ _) as [mz ez];
    apply binary_round_aux_not_nan; lia.
Qed.

Lemma sub_finite (x y : float) :
  is_finite x = true -> is_finite y = true -> is_nan (x - y)%float = false.
Proof.
  intros Hx Hy. apply is_finite_Prim2SF in Hx, Hy.
  apply is_nan_false_Prim2SF. rewrite FloatAxioms.sub_spec.
  unfold FloatAxioms.SF64sub, SpecFloat.SFsub.
  destruct (FloatOps.Prim2SF x) as [sx|sx| |sx mx ex]; try contradiction;
    destruct (FloatOps.Prim2SF y) as [sy|sy| |sy my ey]; try contradiction;
    try discriminate.
  - destruct sx, sy; discriminate.
  - apply binary_normalize_not_nan.
Qed.

Lemma Prim2SF_zero : FloatOps.Prim2SF 0%float = SpecFloat.S754_zero false.
Proof. reflexivity. Qed.

Lemma div_core_nonneg (mx my : positive) (ex ey : Z) :
  (0 <= fst (fst (SpecFloat.SFdiv_core_binary FloatOps.prec FloatOps.emax
                    (Zpos mx) ex (Zpos my) ey)))%Z.
Proof.
  unfold SpecFloat.SFdiv_core_binary.
  set (e' := Z.min _ _). set (s := (ex - ey - e')%Z).
  set (m' := match s with Zpos _ => Z.shiftl (Zpos mx) s | Z0 => Zpos mx | Zneg _ => 0%Z end).
  assert (M : (0 <= m')%Z).
  { unfold m'. destruct s; try lia. apply Z.shiftl_nonneg. lia. }
  pose proof (Z.div_pos m' (Zpos my) M ltac:(lia)) as D.
  unfold Z.div in D.
  destruct (Z.div_eucl m' (Zpos my)) as [q r]. exact D.
Qed.

Lemma div_finite (x y : float) :
  is_nan x = false -> is_finite y = true -> (y =? 0)%float = false ->
  is_nan (x / y)%float = false.
Proof.
  intros Hx Hy H0. apply is_finite_Prim2SF in Hy.
  apply is_nan_false_Prim2SF in Hx.
  rewrite FloatAxioms.eqb_spec, Prim2SF_zero in H0.
  apply is_nan_false_Prim2SF. rewrite FloatAxioms.div_spec.
  unfold FloatAxioms.SF64div, SpecFloat.SFdiv.
  destruct (FloatOps.Prim2SF y) as [sy|sy| |sy my ey]; try contradiction;
    [discriminate H0|].
  destruct (FloatOps.Prim2SF x) as [sx|sx| |sx mx ex]; try discriminate;
    [congruence|].
  pose proof (div_core_nonneg mx my ex ey) as Q.
  destruct (SpecFloat.SFdiv_core_binary _ _ _ _ _ _) as [[mz ez] lz].
  apply binary_round_aux_not_nan. exact Q.
Qed.


Lemma is_nan_eq (x : float) : is_nan x = true -> x = nan.
Proof.
  intros H. apply FloatAxioms.Prim2SF_inj.
  apply is_nan_Prim2SF in H. now rewrite H.
Qed.

Lemma last_firstn_nth {A : Type} (d : A) (vs : list A) (i : nat) :
  (i < length vs)%nat -> last (firstn (S i) vs) d = nth i vs d.
Proof.
  revert i. induction vs as [|v vs IH]; intros i H; simpl in H; [lia|].
  destruct i as [|i]; [reflexivity|].
  change (firstn (S (S i)) (v :: vs)) with (v :: firstn (S i) vs).
  destruct vs as [|v' vs]; simpl in H; [lia|].
  change (firstn (S i) (v' :: vs)) with (v' :: firstn i vs) at 1.
  cbn [last]. change (v' :: firstn i vs) with (firstn (S i) (v' :: vs)).
  apply IH. simpl. lia.
Qed.

(** ** The program, row by row *)

Lemma b64_zip_rows_map {A : Type} (fy : A -> Z) (fb fs fp fa : A -> float)
    (l : list A) :
  B64.zip_rows (map fy l) (map fb l) (map fs l) (map fp l) (map fa l)
  = map (fun x => B64.Frame.mk (fy x) (Four.mk (fb x) (fs x) (fp x) (fa x)))
        l.
Proof. induction l; simpl; congruence. Qed.

Lemma b64_result_frame_map {A : Type} (fs : A -> B64.Frame.row)
    (fa : A -> float) (fn : A -> Z) (fl : A -> string) (l : list A) :
  B64.result_frame (map fs l) (map fa l) (map fn l) (map fl l)
  = map (fun x => B64.Out.mk (B64.Frame.year (fs x))
                    (Four.beneish (B64.Frame.cells (fs x)))
                    (Four.sloan (B64.Frame.cells (fs x)))
                    (Four.piotroski (B64.Frame.cells (fs x)))
                    (Four.altman (B64.Frame.cells (fs x)))
                    (fa x) (fn x) (fl x)) l.
Proof. induction l; simpl; congruence. Qed.

Variable fsum : list float -> float.

Lemma b64_length_zscores (vs : list float) :
  length (B64.zscores fsum vs) = length vs.
Proof. unfold B64.zscores. now rewrite length_map, length_seq. Qed.

Lemma b64_index_rolling_zscore (s : B64.Series) :
  B64.index (B64.rolling_zscore fsum s) = B64.index s.
Proof.
  unfold B64.rolling_zscore, B64.index.
  assert (H : forall (a : list Z) (b : list float),
             length a = length b -> map fst (combine a b) = a).
  { induction a as [|x a IH]; intros [|y b] E; simpl in *; try congruence.
    f_equal. apply IH. congruence. }
  apply H. unfold B64.values. now rewrite b64_length_zscores, !length_map.
Qed.

Lemma b64_values_rolling_zscore (s : B64.Series) :
  B64.values (B64.rolling_zscore fsum s) = B64.zscores fsum (B64.values s).
Proof.
  unfold B64.rolling_zscore, B64.values at 1.
  assert (H : forall (a : list Z) (b : list float),
             length a = length b -> map snd (combine a b) = b).
  { induction a as [|x a IH]; intros [|y b] E; simpl in *; try congruence.
    f_equal. apply IH. congruence. }
  apply H. unfold B64.index, B64.values.
  now rewrite b64_length_zscores, !length_map.
Qed.

Lemma b64_index_neg_series (s : B64.Series) :
  B64.index (B64.neg_series s) = B64.index s.
Proof. unfold B64.index, B64.neg_series. rewrite map_map. reflexivity. Qed.

Lemma b64_values_neg_series (s : B64.Series) :
  B64.values (B64.neg_series s) = map opp (B64.values s).
Proof. unfold B64.values, B64.neg_series. now rewrite !map_map. Qed.

Lemma b64_index_column (f : Four.t float -> float) (df : list B64.Df.row) :
  B64.index (B64.Df.column f df) = map B64.Df.year df.
Proof. unfold B64.index, B64.Df.column. now rewrite map_map. Qed.

Lemma b64_values_column (f : Four.t float -> float) (df : list B64.Df.row) :
  B64.values (B64.Df.column f df) = map (fun r => f (B64.Df.cells r)) df.
Proof. unfold B64.values, B64.Df.column. now rewrite map_map. Qed.

Lemma b64_length_values_column (f : Four.t float -> float)
    (df : list B64.Df.row) :
  length (B64.values (B64.Df.column f df)) = length df.
Proof. now rewrite b64_values_column, length_map. Qed.

Lemma b64_zscores_column (f : Four.t float -> float) (df : list B64.Df.row) :
  B64.zscores fsum (B64.values (B64.Df.column f df))
  = map (fun i => B64.zscore_window fsum (B64.window f df i))
        (seq 0 (length df)).
Proof. unfold B64.zscores, B64.window. now rewrite b64_length_values_column. Qed.

Lemma b64_DataFrame_same_index (b s p a : B64.Series) :
  B64.index s = B64.index b -> B64.index p = B64.index b ->
  B64.index a = B64.index b ->
  B64.DataFrame b s p a
  = Some (B64.zip_rows (B64.index b) (B64.values b) (B64.values s)
                       (B64.values p) (B64.values a)).
Proof.
  intros Hs Hp Ha. unfold B64.DataFrame.
  now rewrite Hs, Hp, Ha, !same_index_refl.
Qed.

Lemma b64_forensic_alpha_rows (beneish sloan piotroski altman : B64.Series)
    (min_signals : Z) :
  B64.forensic_alpha fsum beneish sloan piotroski altman min_signals
  = option_map (B64.blend fsum)
               (B64.surviving beneish sloan piotroski altman min_signals).
Proof.
  unfold B64.forensic_alpha, B64.surviving.
  destruct (B64.DataFrame beneish sloan piotroski altman) as [frame|];
    [|reflexivity].
  cbn [option_map].
  set (df := filter _ _).
  destruct df as [|r0 df'] eqn:Edf; [reflexivity|].
  rewrite <- Edf. clear Edf r0 df'.
  rewrite b64_DataFrame_same_index;
    rewrite ?b64_index_neg_series, ?b64_index_rolling_zscore,
            ?b64_index_column;
    try reflexivity.
  rewrite !b64_values_neg_series, !b64_values_rolling_zscore,
          !b64_zscores_column.
  rewrite (map_nth_seq B64.Df.year df B64.nan_row).
  rewrite (map_nth_seq B64.Df.signal_count df B64.nan_row).
  rewrite !map_map.
  rewrite b64_zip_rows_map.
  rewrite !map_map.
  rewrite combine_map_same, !map_map.
  rewrite b64_result_frame_map.
  reflexivity.
Qed.


(** ** One window *)

Lemma b64_zscore_window_degenerate (w : list float) :
  B64.degenerate fsum w = true -> B64.zscore_window fsum w = 0%float.
Proof. unfold B64.degenerate, B64.zscore_window. now intros ->. Qed.

Lemma b64_zscore_window_regular (w : list float) :
  B64.degenerate fsum w = false ->
  B64.zscore_window fsum w
  = ((last w nan - B64.mean fsum w) / B64.std fsum w)%float.
Proof. unfold B64.degenerate, B64.zscore_window. now intros ->. Qed.



(** A window that is not degenerate gives NaN for a NaN at its end, and a
    number for a finite value when its mean and its deviation are finite. *)
Lemma b64_zscore_window_nan (w : list float) :
  B64.degenerate fsum w = false -> is_nan (last w nan) = true ->
  is_nan (B64.zscore_window fsum w) = true.
Proof.
  intros D N. rewrite b64_zscore_window_regular by exact D.
  now apply div_nan_l, sub_nan_l.
Qed.

Lemma b64_zscore_window_number (w : list float) :
  B64.degenerate fsum w = false ->
  is_finite (last w nan) = true ->
  is_finite (B64.mean fsum w) = true ->
  is_finite (B64.std fsum w) = true ->
  is_nan (B64.zscore_window fsum w) = false.
Proof.
  intros D L M S. rewrite b64_zscore_window_regular by exact D.
  apply div_finite; [now apply sub_finite|exact S|].
  unfold B64.degenerate in D. apply orb_false_iff in D. tauto.
Qed.


(** ** The expanding-window formula *)



(** ** Rows of the result *)

Lemma b64_forensic_alpha_Some (b s p a : B64.Series) (m : Z)
    (out : list B64.Out.t) :
  B64.forensic_alpha fsum b s p a m = Some out
  <-> exists df, B64.surviving b s p a m = Some df /\ out = B64.blend fsum df.
Proof.
  rewrite b64_forensic_alpha_rows.
  destruct (B64.surviving b s p a m) as [df|]; simpl; split.
  - intros E. exists df. split; congruence.
  - intros (df' & E & ->). congruence.
  - discriminate.
  - intros (df' & E & _). discriminate.
Qed.

Lemma b64_blend_nth_error (df : list B64.Df.row) (i : nat) (row : B64.Out.t) :
  nth_error (B64.blend fsum df) i = Some row
  <-> (i < length df)%nat /\ row = B64.blend_row fsum df i.
Proof.
  unfold B64.blend. rewrite nth_error_map, nth_error_seq.
  destruct (Nat.ltb_spec i (length df)); simpl; split.
  - intros E. split; [assumption|congruence].
  - intros (_ & ->). reflexivity.
  - discriminate.
  - intros (A & _). lia.
Qed.

Lemma b64_surviving_rows (b s p a : B64.Series) (m : Z)
    (df : list B64.Df.row) :
  B64.surviving b s p a m = Some df ->
  Forall (fun r => B64.Df.signal_count r = B64.notna_count (B64.Df.cells r)
                   /\ (m <= B64.Df.signal_count r)%Z) df.
Proof.
  unfold B64.surviving. destruct (B64.DataFrame b s p a) as [frame|]; simpl;
    [|discriminate].
  intros E. injection E as <-.
  apply Forall_forall. intros r Hr. apply filter_In in Hr.
  destruct Hr as (Hin & Hm). apply in_map_iff in Hin.
  destruct Hin as (fr & <- & _). split; [reflexivity|].
  now apply Z.leb_le.
Qed.

Lemma b64_last_window (f : Four.t float -> float) (df : list B64.Df.row)
    (i : nat) :
  (i < length df)%nat ->
  last (B64.window f df i) nan = f (B64.Df.cells (nth i df B64.nan_row)).
Proof.
  intros Hi. unfold B64.window.
  rewrite last_firstn_nth by (now rewrite b64_length_values_column).
  rewrite b64_values_column.
  rewrite (nth_indep _ nan (f (B64.Df.cells B64.nan_row)))
    by (now rewrite length_map).
  apply (map_nth (fun r => f (B64.Df.cells r))).
Qed.

(** The signal of a metric in a row: the z-score of its window, negated for
    [beneish] and [sloan]. *)
Lemma b64_signal_column (df : list B64.Df.row) (i : nat)
    (src : Four.t float -> float) (sig : B64.Out.t -> float) (negated : bool) :
  In (src, sig, negated) B64.metric_columns ->
  sig (B64.blend_row fsum df i)
  = if negated then (- B64.zscore_window fsum (B64.window src df i))%float
    else B64.zscore_window fsum (B64.window src df i).
Proof.
  intros Hin. simpl in Hin.
  destruct Hin as [E|[E|[E|[E|[]]]]]; injection E as <- <- <-; reflexivity.
Qed.

(** ** Null entries of the normalized table *)

(** C4, as the program has it.  In the table of normalized signals, the
    entry of a metric in a surviving year is the number 0.0 (with a minus
    sign for [beneish] and [sloan]) when the window of the metric up to that
    year is degenerate, whatever the source value, null included.  In a
    window that is not degenerate a null source gives a null entry, and a
    finite source gives a number when the mean and the deviation of the
    window are finite.  So an entry is null only in a window that is not
    degenerate. *)
Theorem normalized_null_iff (b s p a : B64.Series) (m : Z)
    (out : list B64.Out.t) (i : nat) (row : B64.Out.t) :
  B64.forensic_alpha fsum b s p a m = Some out ->
  nth_error out i = Some row ->
  exists df r,
    B64.surviving b s p a m = Some df
    /\ nth_error df i = Some r
    /\ forall src sig negated, In (src, sig, negated) B64.metric_columns ->
         let w := B64.window src df i in
         (B64.degenerate fsum w = true ->
          sig row = if negated then neg_zero else zero)
         /\ (B64.degenerate fsum w = false ->
             is_nan (src (B64.Df.cells r)) = true -> is_nan (sig row) = true)
         /\ (B64.degenerate fsum w = false ->
             is_finite (src (B64.Df.cells r)) = true ->
             is_finite (B64.mean fsum w) = true ->
             is_finite (B64.std fsum w) = true ->
             is_nan (sig row) = false)
         /\ (is_nan (sig row) = true -> B64.degenerate fsum w = false).
Proof.
  intros Hout Hrow.
  apply b64_forensic_alpha_Some in Hout. destruct Hout as (df & Hdf & ->).
  apply b64_blend_nth_error in Hrow. destruct Hrow as (Hi & ->).
  exists df, (nth i df B64.nan_row).
  split; [exact Hdf|]. split; [now apply nth_error_nth'|].
  intros src sig negated Hin w.
  rewrite (b64_signal_column df i src sig negated Hin). fold w.
  assert (Z : B64.degenerate fsum w = true ->
              (if negated then (- B64.zscore_window fsum w)%float
               else B64.zscore_window fsum w)
              = if negated then neg_zero else zero).
  { intros D. rewrite b64_zscore_window_degenerate by exact D.
    destruct negated; reflexivity. }
  assert (O : forall z, is_nan (if negated then (- z)%float else z)
                        = is_nan z).
  { intros z. destruct negated; [apply is_nan_opp|reflexivity]. }
  split; [exact Z|]. split; [|split].
  - intros D N. rewrite O. apply b64_zscore_window_nan; [exact D|].
    unfold w. now rewrite b64_last_window.
  - intros D F M S. rewrite O. apply b64_zscore_window_number; try assumption.
    unfold w. now rewrite b64_last_window.
  - intros N. destruct (B64.degenerate fsum w) eqn:D; [|reflexivity].
    rewrite Z in N by reflexivity. destruct negated; discriminate N.
Qed.


(** ** The denominator of a row *)

(** A product with a finite number other than zero is NaN exactly when the
    other factor is. *)
Lemma is_nan_mul (x w : float) :
  is_finite w = true -> (w =? 0)%float = false ->
  is_nan (x * w)%float = is_nan x.
Proof.
  intros Hw H0. apply is_finite_Prim2SF in Hw.
  rewrite FloatAxioms.eqb_spec, Prim2SF_zero in H0.
  apply eq_true_iff_eq.
  rewrite !is_nan_Prim2SF, FloatAxioms.mul_spec.
  unfold FloatAxioms.SF64mul, SpecFloat.SFmul.
  destruct (FloatOps.Prim2SF w) as [sw|sw| |sw mw ew]; try contradiction;
    [discriminate H0|].
  destruct (FloatOps.Prim2SF x) as [sx|sx| |sx mx ex];
    try (split; [discriminate|discriminate]); [tauto|].
  split; [|discriminate]. intros E. exfalso.
  revert E. apply binary_round_aux_not_nan. lia.
Qed.

Lemma b64_notna_weighted (sg : Four.t float) :
  Four.map B64.notna (B64.weighted_row sg) = Four.map B64.notna sg.
Proof.
  destruct sg as [b s p a].
  unfold B64.weighted_row, B64.base_weights, Four.map2, Four.map, B64.notna.
  cbn [Four.beneish Four.sloan Four.piotroski Four.altman].
  now rewrite !is_nan_mul by reflexivity.
Qed.

(** The denominator is 0 when the four signals are NaN, and positive
    otherwise. *)
Lemma b64_normalized_weight_cases (sg : Four.t float) :
  let den := B64.normalized_weight (B64.weighted_row sg) in
  ((den =? 0)%float = true
   <-> Forall (fun c => is_nan c = true) (Four.to_list sg))
  /\ ((den =? 0)%float = false -> (0 <? den)%float = true).
Proof.
  unfold B64.normalized_weight. rewrite b64_notna_weighted.
  destruct sg as [b s p a].
  unfold Four.to_list, Four.map, Four.map2, B64.notna.
  cbn [Four.beneish Four.sloan Four.piotroski Four.altman].
  destruct (is_nan b) eqn:Eb, (is_nan s) eqn:Es, (is_nan p) eqn:Ep,
           (is_nan a) eqn:Ea;
    (split; [split; [intros H; try discriminate H;
                     repeat constructor; assumption
                    |intros H; try reflexivity;
                     repeat (apply Forall_cons_iff in H; destruct H as [? H]);
                     congruence]
            |intros H; try discriminate H; reflexivity]).
Qed.

(** With a denominator of 0 the quotient is NaN, and so is its rounding. *)
Lemma b64_alpha_zero_denominator (sg : Four.t float) :
  (B64.normalized_weight (B64.weighted_row sg) =? 0)%float = true ->
  B64.round4 (B64.alpha_row sg) = nan.
Proof.
  intros H. unfold B64.alpha_row, B64.replace_0_nan. rewrite H.
  rewrite (is_nan_eq _ (div_nan_r _ nan eq_refl)). reflexivity.
Qed.

Lemma b64_notna_count_pos (cells : Four.t float) :
  (1 <= B64.notna_count cells)%Z ->
  exists src sig negated,
    In (src, sig, negated) B64.metric_columns /\ is_nan (src cells) = false.
Proof.
  destruct cells as [b s p a]. unfold B64.notna_count, B64.notna.
  cbn [Four.map Four.to_list Four.beneish Four.sloan Four.piotroski
       Four.altman map fold_right].
  destruct (is_nan b) eqn:Eb;
    [|intros _; exists Four.beneish, B64.Out.beneish_signal, true;
      split; [simpl; tauto|exact Eb]].
  destruct (is_nan s) eqn:Es;
    [|intros _; exists Four.sloan, B64.Out.sloan_signal, true;
      split; [simpl; tauto|exact Es]].
  destruct (is_nan p) eqn:Ep;
    [|intros _; exists Four.piotroski, B64.Out.piotroski_signal, false;
      split; [simpl; tauto|exact Ep]].
  destruct (is_nan a) eqn:Ea;
    [|intros _; exists Four.altman, B64.Out.altman_signal, false;
      split; [simpl; tauto|exact Ea]].
  simpl. lia.
Qed.

Lemma b64_signal_In (row : B64.Out.t) (src : Four.t float -> float)
    (sig : B64.Out.t -> float) (negated : bool) :
  In (src, sig, negated) B64.metric_columns ->
  In (sig row) (Four.to_list (B64.signals_of row)).
Proof.
  intros Hin. simpl in Hin. unfold Four.to_list, B64.signals_of. simpl.
  destruct Hin as [E|[E|[E|[E|[]]]]]; injection E as <- <- <-; tauto.
Qed.

(** C7, as the program has it.  The effective denominator of a row is 0
    exactly when its four signals are null, and is positive otherwise; when
    it is 0 the program divides by NaN, not by 0, and [forensic_alpha] is
    null.  With [min_signals >= 1] every row of the result has a source
    value that is not null.  The signal of a metric is not null, and the
    denominator is positive, when the window of the metric is degenerate or
    its source value, its mean and its deviation are finite. *)
Theorem zero_denominator (b s p a : B64.Series) (m : Z)
    (out : list B64.Out.t) (i : nat) (row : B64.Out.t) :
  B64.forensic_alpha fsum b s p a m = Some out ->
  nth_error out i = Some row ->
  let den := B64.normalized_weight (B64.weighted_row (B64.signals_of row)) in
  ((den =? 0)%float = true
   <-> Forall (fun c => is_nan c = true) (Four.to_list (B64.signals_of row)))
  /\ ((den =? 0)%float = false -> (0 <? den)%float = true)
  /\ ((den =? 0)%float = true -> is_nan (B64.Out.forensic_alpha row) = true)
  /\ exists df r,
       B64.surviving b s p a m = Some df
       /\ nth_error df i = Some r
       /\ ((1 <= m)%Z ->
           exists src sig negated,
             In (src, sig, negated) B64.metric_columns
             /\ is_nan (src (B64.Df.cells r)) = false)
       /\ forall src sig negated, In (src, sig, negated) B64.metric_columns ->
            let w := B64.window src df i in
            B64.degenerate fsum w = true
            \/ (is_finite (src (B64.Df.cells r)) = true
                /\ is_finite (B64.mean fsum w) = true
                /\ is_finite (B64.std fsum w) = true) ->
            is_nan (sig row) = false /\ (0 <? den)%float = true.
Proof.
  intros Hout Hrow den.
  destruct (b64_normalized_weight_cases (B64.signals_of row)) as (Z & P).
  fold den in Z, P.
  apply b64_forensic_alpha_Some in Hout. destruct Hout as (df & Hdf & ->).
  apply b64_blend_nth_error in Hrow. destruct Hrow as (Hi & ->).
  split; [exact Z|]. split; [exact P|]. split.
  - intros H. cbn [B64.blend_row B64.Out.forensic_alpha].
    change (B64.signals_of (B64.blend_row fsum df i))
      with (B64.signals_at fsum df i) in den.
    now rewrite b64_alpha_zero_denominator.
  - exists df, (nth i df B64.nan_row).
    split; [exact Hdf|]. split; [now apply nth_error_nth'|]. split.
    + intros Hm. apply b64_notna_count_pos.
      pose proof (b64_surviving_rows _ _ _ _ _ _ Hdf) as F.
      rewrite Forall_forall in F.
      destruct (F (nth i df B64.nan_row)) as (Ec & Hc); [now apply nth_In|].
      lia.
    + intros src sig negated Hin w Hw.
      assert (N : is_nan (sig (B64.blend_row fsum df i)) = false).
      { rewrite (b64_signal_column df i src sig negated Hin). fold w.
        assert (O : forall z, is_nan (if negated then (- z)%float else z)
                              = is_nan z).
        { intros z. destruct negated; [apply is_nan_opp|reflexivity]. }
        rewrite O. destruct Hw as [D|(F & M & S)].
        - now rewrite b64_zscore_window_degenerate.
        - destruct (B64.degenerate fsum w) eqn:D;
            [now rewrite b64_zscore_window_degenerate|].
          apply b64_zscore_window_number; try assumption.
          unfold w. now rewrite b64_last_window. }
      split; [exact N|]. apply P.
      destruct (den =? 0)%float; [|reflexivity].
      pose proof (proj1 Z eq_refl) as E. rewrite Forall_forall in E.
      rewrite (E _ (b64_signal_In _ src sig negated Hin)) in N.
      discriminate N.
Qed.

End Binary64.

Section Binary64_samples.
Import PrimFloat.




Lemma b64_sample_gap :
  B64.forensic_alpha B64.add_in_order B64.Sample.rising_3y
    B64.Sample.rising_3y B64.Sample.rising_3y B64.Sample.gap_3y 3
  = Some (B64.blend B64.add_in_order B64.Sample.df_gap).
Proof. reflexivity. Qed.

Lemma normalized_null_iff_witness :
  B64.forensic_alpha B64.add_in_order B64.Sample.rising_3y
    B64.Sample.rising_3y B64.Sample.rising_3y B64.Sample.gap_3y 3
  = Some (B64.blend B64.add_in_order B64.Sample.df_gap)
  /\ nth_error (B64.blend B64.add_in_order B64.Sample.df_gap) 2
     = Some (B64.blend_row B64.add_in_order B64.Sample.df_gap 2)
  /\ is_nan (B64.Out.altman_signal
               (B64.blend_row B64.add_in_order B64.Sample.df_gap 2)) = true
  /\ is_nan (B64.Out.beneish_signal
               (B64.blend_row B64.add_in_order B64.Sample.df_gap 2)) = false.
Proof.
  split; [exact b64_sample_gap|]. split; [reflexivity|].
  destruct (normalized_null_iff B64.add_in_order _ _ _ _ _ _ 2 _
              b64_sample_gap eq_refl) as (df & r & Hdf & Hr & H).
  assert (Ed : df = B64.Sample.df_gap)
    by (vm_compute in Hdf; now injection Hdf as <-).
  subst df. injection Hr as <-.
  split.
  - destruct (H Four.altman B64.Out.altman_signal false) as (_ & N & _);
      [simpl; tauto|].
    apply N; reflexivity.
  - destruct (H Four.beneish B64.Out.beneish_signal true) as (_ & _ & F & _);
      [simpl; tauto|].
    apply F; reflexivity.
Defined.

(** The two ways in which C4 as stated fails in binary64.  A null source
    in a degenerate window: one year with [beneish] missing gives the entry
    -0.0.  A source that is not null with a window whose sum overflows: the
    second of two years with 1e308 gives a null entry. *)
Example b64_null_source_number :
  exists row,
    B64.forensic_alpha B64.add_in_order B64.Sample.missing_2020
      B64.Sample.one_2020 B64.Sample.one_2020 B64.Sample.one_2020 3
    = Some [row]
    /\ B64.Out.beneish_signal row = neg_zero.
Proof. eexists. split; reflexivity. Qed.

Example b64_overflow_null_entry :
  B64.zscores B64.add_in_order (B64.values B64.Sample.huge_2y) = [0; nan]%float
  /\ B64.mean B64.add_in_order (B64.values B64.Sample.huge_2y) = infinity
  /\ B64.zscores B64.add_in_order (B64.values B64.Sample.inf_2y)
     = [0; nan]%float.
Proof. repeat split; reflexivity. Qed.

Lemma zero_denominator_witness :
  B64.forensic_alpha B64.add_in_order B64.Sample.rising_3y
    B64.Sample.rising_3y B64.Sample.rising_3y B64.Sample.gap_3y 3
  = Some (B64.blend B64.add_in_order B64.Sample.df_gap)
  /\ nth_error (B64.blend B64.add_in_order B64.Sample.df_gap) 2
     = Some (B64.blend_row B64.add_in_order B64.Sample.df_gap 2)
  /\ (1 <= 3)%Z
  /\ is_nan (B64.Out.piotroski_signal
               (B64.blend_row B64.add_in_order B64.Sample.df_gap 2)) = false
  /\ (0 <? B64.normalized_weight
             (B64.weighted_row
                (B64.signals_of
                   (B64.blend_row B64.add_in_order B64.Sample.df_gap 2))))%float
     = true.
Proof.
  split; [exact b64_sample_gap|]. split; [reflexivity|]. split; [lia|].
  destruct (zero_denominator B64.add_in_order _ _ _ _ _ _ 2 _
              b64_sample_gap eq_refl)
    as (_ & _ & _ & df & r & Hdf & Hr & _ & H).
  assert (Ed : df = B64.Sample.df_gap)
    by (vm_compute in Hdf; now injection Hdf as <-).
  subst df. injection Hr as <-.
  apply (H Four.piotroski B64.Out.piotroski_signal false);
    [simpl; tauto|].
  right. repeat split; reflexivity.
Defined.

(** C7 as stated fails: four series with the values 1e308, 1e308 and
    [min_signals = 3].  The row of 2021 survives with four scores; the sum
    of each window overflows, its mean and its deviation are infinite, the
    four signals are NaN, the denominator is 0 and [forensic_alpha] is
    null. *)
Lemma zero_denominator_reached :
  (exists out row,
      B64.forensic_alpha B64.add_in_order B64.Sample.huge_2y
        B64.Sample.huge_2y B64.Sample.huge_2y B64.Sample.huge_2y 3 = Some out
      /\ nth_error out 1 = Some row
      /\ B64.Out.signal_count row = 4%Z
      /\ B64.signals_of row = Four.mk nan nan nan nan
      /\ B64.normalized_weight (B64.weighted_row (B64.signals_of row))
         = 0%float
      /\ B64.Out.forensic_alpha row = nan)
  /\ ~ B64.denominator_positive B64.add_in_order B64.Sample.huge_2y
         B64.Sample.huge_2y B64.Sample.huge_2y B64.Sample.huge_2y 3.
Proof.
  split.
  - do 2 eexists. split; [reflexivity|]. split; [reflexivity|].
    repeat split; reflexivity.
  - intros H.
    specialize (H ltac:(lia) _ _ eq_refl (or_intror (or_introl eq_refl))).
    vm_compute in H. discriminate H.
Qed.

(** The row of 2021 of that result carries the label of a null alpha. *)
Example b64_null_alpha_label :
  B64.label nan = "Neutral"%string
  /\ exists out row,
       B64.forensic_alpha B64.add_in_order B64.Sample.huge_2y
         B64.Sample.huge_2y B64.Sample.huge_2y B64.Sample.huge_2y 3 = Some out
       /\ nth_error out 1 = Some row
       /\ B64.Out.forensic_alpha row = nan
       /\ B64.Out.signal row = "Neutral"%string.
Proof.
  split; [reflexivity|]. do 2 eexists.
  split; [reflexivity|]. split; [reflexivity|]. split; reflexivity.
Qed.

(** [round(4)] in binary64.  The number 5e-05 of binary64 lies above the
    half-way point 0.00005, but its product with 10^4 is rounded to 0.5, a
    tie, which goes to the even integer 0.  The number 0.03125 is half-way
    between 0.0312 and 0.0313 exactly and goes to the even multiple. *)
Example b64_round4_samples :
  (5e-05 * 10000)%float = 0.5%float
  /\ B64.round4 5e-05 = 0%float
  /\ B64.round4 1e-04 = 0.0001%float
  /\ B64.round4 0.03125 = 0.0312%float
  /\ B64.round4 (-0.03125) = (-0.0312)%float
  /\ B64.round4 0.28861 = 0.2886%float
  /\ B64.round4 nan = nan.
Proof. repeat split; reflexivity. Qed.

End Binary64_samples.

(** * Further properties of the program *)

(** ** The shape of [rolling_zscore] *)

(** X1.  [rolling_zscore] returns a series over the same index and of the
    same length.  An entry of the result is null only where the window holds
    at least two non-null values, so never at the first position, and never
    before a second value has been seen. *)
Theorem rolling_zscore_shape (s : Series) :
  index (rolling_zscore s) = index s
  /\ length (rolling_zscore s) = length s
  /\ forall i, nth_error (values (rolling_zscore s)) i = Some None ->
               (1 <= i)%nat /\ (2 <= count (firstn (S i) (values s)))%nat.
Proof.
  split; [apply index_rolling_zscore|]. split.
  - rewrite rolling_zscore_rows. now rewrite length_map, length_seq.
  - intros i H. rewrite values_rolling_zscore in H.
    assert (Hi : (i < length (values s))%nat).
    { rewrite <- length_zscores. apply nth_error_Some. congruence. }
    rewrite zscores_nth_error in H by exact Hi.
    assert (N : zscore_window (firstn (S i) (values s)) = None)
      by congruence.
    apply zscore_window_None in N.
    destruct N as (_ & C & _).
    pose proof (count_le_length (firstn (S i) (values s))) as L.
    rewrite length_firstn in L. split; [lia|exact C].
Qed.

(** ** More on rounding *)

Lemma rint_monotone (x y : R) : x <= y -> (rint x <= rint y)%Z.
Proof.
  intros H.
  destruct (Z_le_gt_dec (rint x) (rint y)) as [L|G]; [exact L|].
  exfalso.
  pose proof (Rabs_bound _ _ (rint_near x)) as Nx.
  pose proof (Rabs_bound _ _ (rint_near y)) as Ny.
  assert (K : (rint y + 1 <= rint x)%Z) by lia.
  apply IZR_le in K. rewrite plus_IZR in K.
  assert (E : x = y) by lra. subst y. lia.
Qed.

Lemma rint_IZR (k : Z) : rint (IZR k) = k.
Proof.
  apply rint_unique. replace (IZR k - IZR k) with 0 by lra.
  rewrite Rabs_R0. lra.
Qed.

Lemma rint_opp (x : R) : rint (- x) = (- rint x)%Z.
Proof.
  pose proof (Rabs_bound _ _ (rint_near x)) as N.
  set (k := rint x) in *.
  destruct (Req_dec_T (x - IZR k) (1 / 2)) as [U|U];
    [|destruct (Req_dec_T (x - IZR k) (- (1 / 2))) as [D|D]].
  - assert (X : x = IZR k + 1 / 2) by lra.
    assert (T := rint_tie k). rewrite <- X in T. fold k in T.
    assert (Ek : Z.even k = true).
    { destruct (Z.even k); [reflexivity|lia]. }
    replace (- x) with (IZR (- k - 1) + 1 / 2)
      by (rewrite minus_IZR, opp_IZR; lra).
    rewrite rint_tie.
    replace (- k - 1)%Z with (Z.pred (- k)) by lia.
    rewrite Z.even_pred, <- Z.negb_even, Z.even_opp, Ek. simpl. lia.
  - assert (X : x = IZR (k - 1) + 1 / 2) by (rewrite minus_IZR; lra).
    assert (T := rint_tie (k - 1)). rewrite <- X in T. fold k in T.
    assert (Ek : Z.even (k - 1) = false).
    { destruct (Z.even (k - 1)); [lia|reflexivity]. }
    replace (- x) with (IZR (- k) + 1 / 2)
      by (rewrite opp_IZR; lra).
    rewrite rint_tie.
    replace (k - 1)%Z with (Z.pred k) in Ek by lia.
    rewrite Z.even_pred, <- Z.negb_even in Ek.
    rewrite Z.even_opp. destruct (Z.even k); [reflexivity|discriminate].
  - apply rint_unique. rewrite opp_IZR.
    apply Rabs_def1; lra.
Qed.

(** X6.  [round(4)] is idempotent, monotone and odd: a rounded value rounds
    to itself, a larger value never rounds to a smaller one, and the
    negated value rounds to the negated result. *)
Theorem round4_laws :
  (forall x, round4 (round4 x) = round4 x)
  /\ (forall x y, x <= y -> round4 x <= round4 y)
  /\ (forall x, round4 (- x) = - round4 x).
Proof.
  split; [|split].
  - intros x. destruct (round4_near x) as (k & E & _). rewrite E.
    apply round4_unique.
    replace (IZR k / 10000 - IZR k / 10000) with 0 by lra.
    rewrite Rabs_R0. lra.
  - intros x y H. unfold round4.
    assert (L : (rint (x * 10000) <= rint (y * 10000))%Z)
      by (apply rint_monotone; lra).
    apply IZR_le in L. lra.
  - intros x. unfold round4.
    replace (- x * 10000) with (- (x * 10000)) by lra.
    rewrite rint_opp, opp_IZR. lra.
Qed.


(** ** The blend as a weighted mean *)





Lemma round4_0 : round4 0 = 0.
Proof.
  rewrite (round4_unique 0 0); [lra|].
  apply Rabs_def1; lra.
Qed.

(** ** The first surviving year *)

Lemma first_window (f : Four.t cell -> cell) (df : list Df.row) :
  zscore_window (window f df 0) = Some 0.
Proof.
  apply zscore_window_degenerate. left. unfold window.
  pose proof (count_le_length (firstn 1 (values (Df.column f df)))) as L.
  rewrite length_firstn in L. lia.
Qed.

Lemma first_row (df : list Df.row) :
  signals_of (blend_row df 0) = Four.mk (Some 0) (Some 0) (Some 0) (Some 0)
  /\ Out.forensic_alpha (blend_row df 0) = Some 0
  /\ Out.signal (blend_row df 0) = "Neutral"%string.
Proof.
  assert (S : signals_at df 0
              = Four.mk (Some (- 0)) (Some (- 0)) (Some 0) (Some 0)).
  { unfold signals_at. now rewrite !first_window. }
  assert (A : Out.forensic_alpha (blend_row df 0) = Some 0).
  { rewrite forensic_alpha_blend_row, S, alpha_row_piotroski_only.
    cbn [option_map]. replace (0 / 4) with 0 by lra. now rewrite round4_0. }
  split; [|split].
  - rewrite signals_of_blend_row, S. now rewrite Ropp_0.
  - exact A.
  - change (Out.signal (blend_row df 0))
      with (label (Out.forensic_alpha (blend_row df 0))).
    rewrite A. label_cases.
Qed.

(** X9.  The first row of every result: its four signals are 0, its
    [forensic_alpha] is 0 and its label is "Neutral", whatever the scores of
    that year are. *)
Theorem first_year_is_neutral (b s p a : Series) (m : Z) (out : list Out.t)
    (row : Out.t) :
  forensic_alpha b s p a m = Some out ->
  nth_error out 0 = Some row ->
  signals_of row = Four.mk (Some 0) (Some 0) (Some 0) (Some 0)
  /\ Out.forensic_alpha row = Some 0
  /\ Out.signal row = "Neutral"%string.
Proof.
  intros Hout Hrow.
  apply forensic_alpha_Some in Hout. destruct Hout as (df & _ & ->).
  apply blend_nth_error in Hrow. destruct Hrow as (_ & ->).
  apply first_row.
Qed.

Lemma first_year_is_neutral_witness :
  forensic_alpha Sample.ones_3y Sample.ones_3y Sample.piotroski_x
                 Sample.ones_3y 3 = Some (blend Sample.df_x)
  /\ nth_error (blend Sample.df_x) 0 = Some (blend_row Sample.df_x 0)
  /\ Out.forensic_alpha (blend_row Sample.df_x 0) = Some 0
  /\ Out.signal (blend_row Sample.df_x 0) = "Neutral"%string.
Proof.
  assert (E : forensic_alpha Sample.ones_3y Sample.ones_3y Sample.piotroski_x
                Sample.ones_3y 3 = Some (blend Sample.df_x))
    by now rewrite forensic_alpha_rows, sample_df_x.
  split; [exact E|]. split; [reflexivity|].
  destruct (first_year_is_neutral _ _ _ _ _ _ _ E eq_refl) as (_ & A & L).
  split; assumption.
Defined.



(** ** Labels of rounded values *)

Lemma label_regions (r : R) :
  (1 < r /\ label (Some r) = "Strong Positive"%string)
  \/ (3 / 10 < r <= 1 /\ label (Some r) = "Positive"%string)
  \/ (r < -1 /\ label (Some r) = "Strong Negative"%string)
  \/ (-1 <= r < - (3 / 10) /\ label (Some r) = "Negative"%string)
  \/ (- (3 / 10) <= r <= 3 / 10 /\ label (Some r) = "Neutral"%string).
Proof.
  destruct (Rlt_dec 1 r) as [A|A]; [left; split; [lra|label_cases]|].
  destruct (Rlt_dec (3 / 10) r) as [B|B];
    [right; left; split; [lra|label_cases]|].
  destruct (Rlt_dec r (-1)) as [C|C];
    [right; right; left; split; [lra|label_cases]|].
  destruct (Rlt_dec r (- (3 / 10))) as [D|D];
    [right; right; right; left; split; [lra|label_cases]|].
  right; right; right; right. split; [lra|label_cases].
Qed.

(** X8.  The labels are ordered as the values are: a larger alpha never
    gets a lower label. *)
Theorem label_monotone (x y : R) :
  x <= y ->
  (label_rank (label (Some x)) <= label_rank (label (Some y)))%Z.
Proof.
  intros H.
  destruct (label_regions x) as [[Hx Lx]|[[Hx Lx]|[[Hx Lx]|[[Hx Lx]|[Hx Lx]]]]];
    destruct (label_regions y)
      as [[Hy Ly]|[[Hy Ly]|[[Hy Ly]|[[Hy Ly]|[Hy Ly]]]]];
    rewrite Lx, Ly; try (exfalso; lra); apply Z.leb_le; reflexivity.
Qed.

Lemma label_monotone_witness :
  3 / 10 <= 2
  /\ (label_rank (label (Some (3 / 10)%R))
      <= label_rank (label (Some 2%R)))%Z.
Proof.
  split; [lra|]. apply label_monotone. lra.
Defined.

Lemma rint_gt_even (t : Z) (x : R) :
  Z.even t = true -> ((t < rint x)%Z <-> IZR t + 1 / 2 < x).
Proof.
  intros Ht. pose proof (Rabs_bound _ _ (rint_near x)) as N. split.
  - intros L. assert (K : (t + 1 <= rint x)%Z) by lia.
    apply IZR_le in K. rewrite plus_IZR in K.
    destruct (Req_dec_T x (IZR t + 1 / 2)) as [E|E]; [|lra].
    exfalso. rewrite E, rint_tie, Ht in L. lia.
  - intros L. apply lt_IZR. lra.
Qed.

Lemma rint_lt_even (t : Z) (x : R) :
  Z.even t = true -> ((rint x < t)%Z <-> x < IZR t - 1 / 2).
Proof.
  intros Ht.
  assert (G := rint_gt_even (- t) (- x)).
  rewrite Z.even_opp, rint_opp, opp_IZR in G. specialize (G Ht).
  split; intros H.
  - assert (A : (- t < - rint x)%Z) by lia. apply G in A. lra.
  - assert (A : - IZR t + 1 / 2 < - x) by lra. apply G in A. lia.
Qed.

Lemma round4_gt_even (t : Z) (x : R) :
  Z.even t = true ->
  (IZR t / 10000 < round4 x <-> (IZR t + 1 / 2) / 10000 < x).
Proof.
  intros Ht. unfold round4. split; intros H.
  - assert (A : (t < rint (x * 10000))%Z) by (apply lt_IZR; lra).
    apply (rint_gt_even t) in A; [lra|exact Ht].
  - assert (A : IZR t + 1 / 2 < x * 10000) by lra.
    apply (rint_gt_even t) in A; [|exact Ht]. apply IZR_lt in A. lra.
Qed.

Lemma round4_lt_even (t : Z) (x : R) :
  Z.even t = true ->
  (round4 x < IZR t / 10000 <-> x < (IZR t - 1 / 2) / 10000).
Proof.
  intros Ht. unfold round4. split; intros H.
  - assert (A : (rint (x * 10000) < t)%Z) by (apply lt_IZR; lra).
    apply (rint_lt_even t) in A; [lra|exact Ht].
  - assert (A : x * 10000 < IZR t - 1 / 2) by lra.
    apply (rint_lt_even t) in A; [|exact Ht]. apply IZR_lt in A. lra.
Qed.

Lemma round4_above (t : Z) (x u v : R) :
  Z.even t = true -> u = IZR t / 10000 -> v = (IZR t + 1 / 2) / 10000 ->
  (u < round4 x <-> v < x).
Proof. intros Ht -> ->. now apply round4_gt_even. Qed.

Lemma round4_below (t : Z) (x u v : R) :
  Z.even t = true -> u = IZR t / 10000 -> v = (IZR t - 1 / 2) / 10000 ->
  (round4 x < u <-> x < v).
Proof. intros Ht -> ->. now apply round4_lt_even. Qed.

(** X7.  Rounding before labelling moves the thresholds by half a unit of
    the fourth decimal: on the value before rounding the label is
    "Strong Positive" above 1.00005, "Positive" above 0.30005,
    "Strong Negative" below -1.00005 and "Negative" below -0.30005, all
    strict, and "Neutral" from -0.30005 to 0.30005. *)
Theorem label_of_rounded (x : R) :
  (label (Some (round4 x)) = "Strong Positive"%string
   <-> 100005 / 100000 < x)
  /\ (label (Some (round4 x)) = "Positive"%string
      <-> 30005 / 100000 < x <= 100005 / 100000)
  /\ (label (Some (round4 x)) = "Strong Negative"%string
      <-> x < - (100005 / 100000))
  /\ (label (Some (round4 x)) = "Negative"%string
      <-> - (100005 / 100000) <= x < - (30005 / 100000))
  /\ (label (Some (round4 x)) = "Neutral"%string
      <-> - (30005 / 100000) <= x <= 30005 / 100000).
Proof.
  assert (F1 : 1 < round4 x <-> 100005 / 100000 < x)
    by (apply (round4_above 10000); [reflexivity|lra|lra]).
  assert (F2 : 3 / 10 < round4 x <-> 30005 / 100000 < x)
    by (apply (round4_above 3000); [reflexivity|lra|lra]).
  assert (F3 : round4 x < -1 <-> x < - (100005 / 100000))
    by (apply (round4_below (-10000)); [reflexivity|lra|lra]).
  assert (F4 : round4 x < - (3 / 10) <-> x < - (30005 / 100000))
    by (apply (round4_below (-3000)); [reflexivity|lra|lra]).
  set (r := round4 x) in *.
  assert (D1 : (1 < r /\ 100005 / 100000 < x)
               \/ (r <= 1 /\ x <= 100005 / 100000)).
  { destruct (Rlt_dec 1 r) as [A|A]; [left; split; [|apply F1]; exact A|].
    right. split; [lra|].
    destruct (Rle_lt_dec x (100005 / 100000)) as [B|B]; [exact B|].
    exfalso. apply A, F1, B. }
  assert (D2 : (3 / 10 < r /\ 30005 / 100000 < x)
               \/ (r <= 3 / 10 /\ x <= 30005 / 100000)).
  { destruct (Rlt_dec (3 / 10) r) as [A|A];
      [left; split; [|apply F2]; exact A|].
    right. split; [lra|].
    destruct (Rle_lt_dec x (30005 / 100000)) as [B|B]; [exact B|].
    exfalso. apply A, F2, B. }
  assert (D3 : (r < -1 /\ x < - (100005 / 100000))
               \/ (-1 <= r /\ - (100005 / 100000) <= x)).
  { destruct (Rlt_dec r (-1)) as [A|A]; [left; split; [|apply F3]; exact A|].
    right. split; [lra|].
    destruct (Rle_lt_dec (- (100005 / 100000)) x) as [B|B]; [exact B|].
    exfalso. apply A, F3, B. }
  assert (D4 : (r < - (3 / 10) /\ x < - (30005 / 100000))
               \/ (- (3 / 10) <= r /\ - (30005 / 100000) <= x)).
  { destruct (Rlt_dec r (- (3 / 10))) as [A|A];
      [left; split; [|apply F4]; exact A|].
    right. split; [lra|].
    destruct (Rle_lt_dec (- (30005 / 100000)) x) as [B|B]; [exact B|].
    exfalso. apply A, F4, B. }
  clear F1 F2 F3 F4.
  destruct (label_regions r) as [[Hr L]|[[Hr L]|[[Hr L]|[[Hr L]|[Hr L]]]]];
    rewrite L;
    destruct D1 as [D1|D1]; destruct D2 as [D2|D2];
    destruct D3 as [D3|D3]; destruct D4 as [D4|D4];
    try (exfalso; lra);
    repeat split; intros; try congruence; lra.
Qed.

Lemma round4_laws_witness :
  1 / 3 <= 1 / 2 /\ round4 (1 / 3) <= round4 (1 / 2).
Proof.
  split; [lra|]. destruct round4_laws as (_ & M & _). apply M. lra.
Defined.

(** ** The threshold [min_signals] *)

Lemma notna_count_range (c : Four.t cell) : (0 <= notna_count c <= 4)%Z.
Proof.
  destruct c as [[b0|] [s0|] [p0|] [a0|]]; unfold notna_count; simpl; lia.
Qed.

Lemma filter_all {A : Type} (f : A -> bool) (l : list A) :
  (forall x, In x l -> f x = true) -> filter f l = l.
Proof.
  induction l as [|x l IH]; intros H; [reflexivity|].
  simpl. rewrite (H x (or_introl eq_refl)). f_equal.
  apply IH. intros y Hy. apply H. now right.
Qed.

Lemma filter_none {A : Type} (f : A -> bool) (l : list A) :
  (forall x, In x l -> f x = false) -> filter f l = [].
Proof.
  induction l as [|x l IH]; intros H; [reflexivity|].
  simpl. rewrite (H x (or_introl eq_refl)).
  apply IH. intros y Hy. apply H. now right.
Qed.

Lemma blend_In (df : list Df.row) (row : Out.t) :
  In row (blend df) ->
  exists r, In r df /\ Out.year row = Df.year r
            /\ Out.signal_count row = Df.signal_count r.
Proof.
  intros H. apply In_nth_error in H. destruct H as (i & H).
  apply blend_nth_error in H. destruct H as (Hi & ->).
  exists (nth i df nan_row). split; [now apply nth_In|]. split; reflexivity.
Qed.

(** X11.  The threshold at its ends.  Above 4 nothing survives and the
    result is the empty table; at 0 or below every assembled year is kept;
    and in every result each row carries a count between [min_signals] and
    4. *)
Theorem min_signals_ends (b s p a : Series) (m : Z)
    (frame : list Frame.row) :
  DataFrame b s p a = Some frame ->
  ((4 < m)%Z -> forensic_alpha b s p a m = Some [])
  /\ ((m <= 0)%Z ->
      exists out, forensic_alpha b s p a m = Some out
                  /\ map Out.year out = map Frame.year frame)
  /\ (forall out row,
         forensic_alpha b s p a m = Some out -> In row out ->
         (m <= Out.signal_count row <= 4)%Z
         /\ (0 <= Out.signal_count row)%Z).
Proof.
  intros Hf.
  assert (E : forensic_alpha b s p a m
              = Some (blend (map assign_signal_count
                               (filter (fun r => (m <=? notna_count
                                                          (Frame.cells r))%Z)
                                       frame)))).
  { rewrite forensic_alpha_rows. unfold surviving. rewrite Hf.
    cbn [option_map]. now rewrite filter_assign_signal_count. }
  split; [|split].
  - intros Hm. rewrite E, filter_none; [reflexivity|].
    intros r _. pose proof (notna_count_range (Frame.cells r)).
    apply Z.leb_gt. lia.
  - intros Hm. eexists. split; [exact E|].
    rewrite filter_all.
    + rewrite year_blend, map_map. reflexivity.
    + intros r _. pose proof (notna_count_range (Frame.cells r)).
      apply Z.leb_le. lia.
  - intros out row Hout Hin. rewrite E in Hout. injection Hout as <-.
    apply blend_In in Hin. destruct Hin as (r & Hr & _ & ->).
    apply in_map_iff in Hr. destruct Hr as (fr & <- & Hfr).
    apply filter_In in Hfr. destruct Hfr as (_ & Hm).
    apply Z.leb_le in Hm. cbn [assign_signal_count Df.signal_count].
    pose proof (notna_count_range (Frame.cells fr)). lia.
Qed.

Lemma min_signals_ends_witness :
  DataFrame Sample.beneish_5y Sample.sloan_5y Sample.piotroski_5y
            Sample.altman_5y = Some Sample.frame_5y
  /\ (4 < 5)%Z
  /\ forensic_alpha Sample.beneish_5y Sample.sloan_5y Sample.piotroski_5y
                    Sample.altman_5y 5 = Some [].
Proof.
  split; [exact sample_frame_5y|]. split; [lia|].
  destruct (min_signals_ends _ _ _ _ 5 _ sample_frame_5y) as (H & _).
  apply H. lia.
Defined.

Lemma filter_filter_le (m m' : Z) (df : list Df.row) :
  (m <= m')%Z ->
  filter (fun r => (m' <=? Df.signal_count r)%Z)
         (filter (fun r => (m <=? Df.signal_count r)%Z) df)
  = filter (fun r => (m' <=? Df.signal_count r)%Z) df.
Proof.
  intros H. induction df as [|r df IH]; [reflexivity|].
  simpl. destruct (Z.leb_spec m (Df.signal_count r)) as [A|A]; simpl.
  - now rewrite IH.
  - rewrite IH. destruct (Z.leb_spec m' (Df.signal_count r)); [lia|].
    reflexivity.
Qed.

Lemma filter_blend (m : Z) (df : list Df.row) :
  map (fun row => (Out.year row, Out.signal_count row))
      (filter (fun row => (m <=? Out.signal_count row)%Z) (blend df))
  = map (fun r => (Df.year r, Df.signal_count r))
        (filter (fun r => (m <=? Df.signal_count r)%Z) df).
Proof.
  assert (G : forall (A B : Type) (ga : A -> Z * Z) (gb : B -> Z * Z)
                     (la : list A) (lb : list B),
             map ga la = map gb lb ->
             map ga (filter (fun x => (m <=? snd (ga x))%Z) la)
             = map gb (filter (fun x => (m <=? snd (gb x))%Z) lb)).
  { intros A B ga gb la. induction la as [|x la IH]; intros [|y lb] E;
      simpl in E; try discriminate; [reflexivity|].
    injection E as E1 E2. simpl. rewrite E1.
    destruct (m <=? snd (gb y))%Z; simpl; rewrite (IH lb E2); congruence. }
  apply (G _ _ (fun row => (Out.year row, Out.signal_count row))
           (fun r => (Df.year r, Df.signal_count r))).
  unfold blend. rewrite map_map. cbn [blend_row Out.year Out.signal_count].
  symmetry. apply (map_nth_seq (fun r => (Df.year r, Df.signal_count r))).
Qed.

(** X12.  Raising the threshold only removes years: the result for a larger
    [min_signals] has exactly the years, with their counts, of the rows of
    the result for the smaller one whose count reaches the larger
    threshold. *)
Theorem raising_min_signals (b s p a : Series) (m m' : Z)
    (out out' : list Out.t) :
  (m <= m')%Z ->
  forensic_alpha b s p a m = Some out ->
  forensic_alpha b s p a m' = Some out' ->
  map (fun row => (Out.year row, Out.signal_count row)) out'
  = map (fun row => (Out.year row, Out.signal_count row))
        (filter (fun row => (m' <=? Out.signal_count row)%Z) out).
Proof.
  intros Hm Hout Hout'.
  apply forensic_alpha_Some in Hout. destruct Hout as (df & Hdf & ->).
  apply forensic_alpha_Some in Hout'. destruct Hout' as (df' & Hdf' & ->).
  rewrite filter_blend.
  unfold surviving in Hdf, Hdf'.
  destruct (DataFrame b s p a) as [frame|]; [|discriminate].
  cbn [option_map] in Hdf, Hdf'.
  assert (E : df' = filter (fun r => (m' <=? Df.signal_count r)%Z) df).
  { injection Hdf as <-. injection Hdf' as <-.
    now rewrite filter_filter_le. }
  rewrite <- E. unfold blend. rewrite map_map.
  cbn [blend_row Out.year Out.signal_count].
  symmetry. apply (map_nth_seq (fun r => (Df.year r, Df.signal_count r))).
Qed.

Lemma raising_min_signals_witness :
  (3 <= 4)%Z
  /\ forensic_alpha Sample.beneish_5y Sample.sloan_5y Sample.piotroski_5y
                    Sample.altman_5y 3
     = Some (blend (map assign_signal_count
                      (filter (fun r => (3 <=? notna_count (Frame.cells r))%Z)
                              Sample.frame_5y)))
  /\ forensic_alpha Sample.beneish_5y Sample.sloan_5y Sample.piotroski_5y
                    Sample.altman_5y 4
     = Some (blend (map assign_signal_count
                      (filter (fun r => (4 <=? notna_count (Frame.cells r))%Z)
                              Sample.frame_5y)))
  /\ map (fun row => (Out.year row, Out.signal_count row))
         (blend (map assign_signal_count
                   (filter (fun r => (4 <=? notna_count (Frame.cells r))%Z)
                           Sample.frame_5y)))
     = [(2019, 4); (2021, 4)]%Z.
Proof.
  assert (E3 : forensic_alpha Sample.beneish_5y Sample.sloan_5y
                 Sample.piotroski_5y Sample.altman_5y 3
               = Some (blend (map assign_signal_count
                                (filter (fun r => (3 <=? notna_count
                                                           (Frame.cells r))%Z)
                                        Sample.frame_5y)))) by reflexivity.
  assert (E4 : forensic_alpha Sample.beneish_5y Sample.sloan_5y
                 Sample.piotroski_5y Sample.altman_5y 4
               = Some (blend (map assign_signal_count
                                (filter (fun r => (4 <=? notna_count
                                                           (Frame.cells r))%Z)
                                        Sample.frame_5y)))) by reflexivity.
  split; [lia|]. split; [exact E3|]. split; [exact E4|].
  rewrite (raising_min_signals _ _ _ _ 3 4 _ _ ltac:(lia) E3 E4).
  rewrite filter_blend. reflexivity.
Defined.

(** ** A later year *)

Lemma zip_rows_snoc (idx : list Z) (cb cs cp ca : list cell) (y : Z)
    (vb vs vp va : cell) :
  length cb = length idx -> length cs = length idx ->
  length cp = length idx -> length ca = length idx ->
  zip_rows (idx ++ [y]) (cb ++ [vb]) (cs ++ [vs]) (cp ++ [vp]) (ca ++ [va])
  = zip_rows idx cb cs cp ca ++ [Frame.mk y (Four.mk vb vs vp va)].
Proof.
  revert cb cs cp ca.
  induction idx as [|y0 idx IH]; intros [|b0 cb] [|s0 cs] [|p0 cp] [|a0 ca];
    simpl; intros Hb Hs Hp Ha; try reflexivity; try discriminate.
  f_equal. apply IH; congruence.
Qed.

Lemma window_app (f : Four.t cell -> cell) (df e : list Df.row) (i : nat) :
  (i < length df)%nat -> window f (df ++ e) i = window f df i.
Proof.
  intros H. unfold window. rewrite !values_column, map_app, firstn_app.
  rewrite length_map.
  replace (S i - length df)%nat with 0%nat by lia.
  now rewrite app_nil_r.
Qed.

Lemma blend_row_app (df e : list Df.row) (i : nat) :
  (i < length df)%nat -> blend_row (df ++ e) i = blend_row df i.
Proof.
  intros H. unfold blend_row, signals_at.
  rewrite !window_app by exact H. now rewrite app_nth1 by exact H.
Qed.

Lemma blend_app (df e : list Df.row) :
  blend (df ++ e)
  = blend df ++ map (blend_row (df ++ e)) (seq (length df) (length e)).
Proof.
  unfold blend. rewrite length_app, seq_app, map_app. f_equal.
  apply map_ext_in. intros i Hi. apply in_seq in Hi.
  apply blend_row_app. lia.
Qed.

Lemma index_snoc (t : Series) (y : Z) (v : cell) :
  index (t ++ [(y, v)]) = index t ++ [y].
Proof. unfold index. now rewrite map_app. Qed.

Lemma values_snoc (t : Series) (y : Z) (v : cell) :
  values (t ++ [(y, v)]) = values t ++ [v].
Proof. unfold values. now rewrite map_app. Qed.

(** X13.  No look-ahead, for the whole computation.  When the four series
    share their index and one more year is appended to each of them, the
    rows of the earlier years are the same as before: the new result is the
    old one followed by at most one row. *)
Theorem appending_a_year (b s p a : Series) (m : Z) (y : Z)
    (vb vs vp va : cell) :
  index s = index b -> index p = index b -> index a = index b ->
  exists out extra,
    forensic_alpha b s p a m = Some out
    /\ forensic_alpha (b ++ [(y, vb)]) (s ++ [(y, vs)]) (p ++ [(y, vp)])
                      (a ++ [(y, va)]) m
       = Some (out ++ extra)
    /\ (length extra <= 1)%nat.
Proof.
  intros Hs Hp Ha.
  rewrite !forensic_alpha_rows. unfold surviving.
  rewrite (DataFrame_same_index b s p a Hs Hp Ha).
  rewrite DataFrame_same_index by (rewrite !index_snoc; congruence).
  rewrite !index_snoc, !values_snoc.
  rewrite zip_rows_snoc
    by (rewrite length_index_values, ?Hs, ?Hp, ?Ha; reflexivity).
  cbn [option_map]. rewrite map_app, filter_app.
  set (df := filter _ (map assign_signal_count (zip_rows _ _ _ _ _))).
  set (e := filter _ (map assign_signal_count [_])).
  exists (blend df), (map (blend_row (df ++ e)) (seq (length df) (length e))).
  split; [reflexivity|]. split; [now rewrite blend_app|].
  rewrite length_map, length_seq. unfold e. simpl.
  destruct (m <=? _)%Z; simpl; lia.
Qed.

Lemma appending_a_year_witness :
  index Sample.full_3y = index Sample.full_3y
  /\ exists out extra,
       forensic_alpha Sample.full_3y Sample.full_3y Sample.full_3y
                      Sample.full_3y 3 = Some out
       /\ forensic_alpha (Sample.full_3y ++ [(2023%Z, Some 7)])
                         (Sample.full_3y ++ [(2023%Z, Some 8)])
                         (Sample.full_3y ++ [(2023%Z, None)])
                         (Sample.full_3y ++ [(2023%Z, Some 9)]) 3
          = Some (out ++ extra)
       /\ (length extra <= 1)%nat.
Proof.
  split; [reflexivity|].
  exact (appending_a_year Sample.full_3y Sample.full_3y Sample.full_3y
           Sample.full_3y 3 2023 (Some 7) (Some 8) None (Some 9)
           eq_refl eq_refl eq_refl).
Defined.

(** ** The years and the entries of the assembled table *)

Lemma get_In (s : Series) (y : Z) (v : cell) :
  NoDup (index s) -> In (y, v) s -> get s y = v.
Proof.
  unfold get, index. induction s as [|[y0 v0] s IH]; intros Hn Hin;
    [contradiction|].
  simpl in *. inversion Hn as [|? ? Hy Hs]; subst.
  destruct (Z.eqb_spec y0 y) as [E|E].
  - subst y0. destruct Hin as [Hin|Hin]; [simpl; congruence|].
    exfalso. apply Hy. apply in_map_iff. now exists (y, v).
  - destruct Hin as [Hin|Hin]; [congruence|]. now apply IH.
Qed.

Lemma zip_rows_same_index_In (b s p a : Series) (r : Frame.row) :
  index s = index b -> index p = index b -> index a = index b ->
  In r (zip_rows (index b) (values b) (values s) (values p) (values a)) ->
  In (Frame.year r, Four.beneish (Frame.cells r)) b
  /\ In (Frame.year r, Four.sloan (Frame.cells r)) s
  /\ In (Frame.year r, Four.piotroski (Frame.cells r)) p
  /\ In (Frame.year r, Four.altman (Frame.cells r)) a.
Proof.
  unfold index, values. revert s p a.
  induction b as [|[yb vb] b IH];
    intros [|[ys vs] s] [|[yp vp] p] [|[ya va] a];
    simpl; intros Hs Hp Ha Hin; try contradiction; try discriminate.
  injection Hs as -> Hs. injection Hp as -> Hp. injection Ha as -> Ha.
  destruct Hin as [<-|Hin]; simpl; [tauto|].
  destruct (IH s p a Hs Hp Ha Hin) as (A & B & C & D). tauto.
Qed.

Lemma ascending_NoDup (l : list Z) : ascending l -> NoDup l.
Proof.
  unfold ascending. induction 1 as [|x l Hs IH Hx]; constructor; [|exact IH].
  intros Hin. rewrite Forall_forall in Hx. specialize (Hx x Hin). lia.
Qed.

(** X14.  The assembled table of four series without repeated years: its
    years are exactly the years that occur in some series, each once, and
    each entry is the value of its series at that year, null when the series
    lacks the year. *)
Theorem DataFrame_union_of_years (b s p a : Series) :
  NoDup (index b) -> NoDup (index s) -> NoDup (index p) -> NoDup (index a) ->
  exists frame,
    DataFrame b s p a = Some frame
    /\ (forall y, In y (map Frame.year frame)
                  <-> In y (index b) \/ In y (index s)
                      \/ In y (index p) \/ In y (index a))
    /\ NoDup (map Frame.year frame)
    /\ (forall r, In r frame ->
          Frame.cells r
          = Four.mk (get b (Frame.year r)) (get s (Frame.year r))
                    (get p (Frame.year r)) (get a (Frame.year r))).
Proof.
  intros Nb Ns Np Na.
  destruct (DataFrame_defined b s p a Nb Ns Np Na) as (frame & Hf).
  exists frame. split; [exact Hf|].
  destruct (DataFrame_years _ _ _ _ _ Hf) as [(Es & Ep & Ea & Ey)|(Hd & Ey)].
  - rewrite Ey, Es, Ep, Ea. split; [intros y; tauto|]. split; [exact Nb|].
    intros r Hr. rewrite (DataFrame_same_index b s p a Es Ep Ea) in Hf.
    injection Hf as <-.
    destruct (zip_rows_same_index_In b s p a r Es Ep Ea Hr) as (A & B & C & D).
    rewrite (get_In b _ _ Nb A), (get_In s _ _ Ns B),
            (get_In p _ _ Np C), (get_In a _ _ Na D).
    now destruct (Frame.cells r).
  - rewrite Ey. split; [|split].
    + intros y. rewrite sort_values_In, unique_In, !in_app_iff. tauto.
    + apply ascending_NoDup, sort_values_ascending, unique_NoDup.
    + intros r Hr. revert Hf. unfold DataFrame.
      destruct (_ && _) eqn:Eall.
      { exfalso. apply Hd. apply andb_prop in Eall. destruct Eall as (E1 & E3).
        apply andb_prop in E1. destruct E1 as (E1 & E2).
        apply same_index_true in E1, E2, E3. repeat split; congruence. }
      unfold reindex.
      rewrite (proj2 (is_unique_NoDup _) Nb), (proj2 (is_unique_NoDup _) Ns),
              (proj2 (is_unique_NoDup _) Np), (proj2 (is_unique_NoDup _) Na).
      intros E. injection E as <-.
      rewrite <- (map_id (sort_values _)) in Hr at 1.
      rewrite zip_rows_map in Hr. apply in_map_iff in Hr.
      destruct Hr as (y & <- & _). reflexivity.
Qed.

Lemma DataFrame_union_of_years_witness :
  NoDup (index Sample.years_20_21) /\ NoDup (index Sample.years_22_20)
  /\ exists frame,
       DataFrame Sample.years_20_21 Sample.years_22_20 Sample.years_20_21
                 Sample.years_20_21 = Some frame
       /\ NoDup (map Frame.year frame).
Proof.
  assert (N1 : NoDup (index Sample.years_20_21))
    by (apply is_unique_NoDup; reflexivity).
  assert (N2 : NoDup (index Sample.years_22_20))
    by (apply is_unique_NoDup; reflexivity).
  split; [exact N1|]. split; [exact N2|].
  destruct (DataFrame_union_of_years _ _ _ _ N1 N2 N1 N1)
    as (frame & E & _ & N & _).
  now exists frame.
Defined.

(** * The advisory call *)

(** ** [find] and [rfind] *)

Lemma find_absent (c : ascii) (raw : Advisor.text) :
  Advisor.find c raw = (-1)%Z <-> ~ In c raw.
Proof.
  induction raw as [|x raw IH]; simpl; [tauto|].
  destruct (Ascii.eqb_spec x c) as [E|E].
  - split; [discriminate|]. intros H. exfalso. apply H. now left.
  - destruct (Z.eqb_spec (Advisor.find c raw) (-1)) as [F|F].
    + split; [|reflexivity]. intros _ [H|H]; [contradiction|].
      now apply IH in F.
    + assert (B : (-1 <= Advisor.find c raw)%Z).
      { clear. induction raw as [|y raw IH]; simpl; [lia|].
        destruct (Ascii.eqb y c); [lia|].
        destruct (Advisor.find c raw =? -1)%Z; lia. }
      split; [lia|]. intros H. exfalso. apply F, IH. tauto.
Qed.

Lemma find_app (c : ascii) (pre rest : Advisor.text) :
  ~ In c pre ->
  Advisor.find c (pre ++ c :: rest) = Z.of_nat (length pre).
Proof.
  induction pre as [|x pre IH]; intros H; simpl.
  - now rewrite Ascii.eqb_refl.
  - destruct (Ascii.eqb_spec x c) as [E|E];
      [exfalso; apply H; now left|].
    rewrite IH by (intros A; apply H; now right).
    destruct (Z.eqb_spec (Z.of_nat (length pre)) (-1)); lia.
Qed.

Lemma rfind_absent (c : ascii) (raw : Advisor.text) :
  Advisor.rfind c raw = (-1)%Z <-> ~ In c raw.
Proof.
  induction raw as [|x raw IH]; simpl; [tauto|].
  assert (B : (-1 <= Advisor.rfind c raw)%Z).
  { clear. induction raw as [|y raw IH]; simpl; [lia|].
    destruct (Advisor.rfind c raw =? -1)%Z; [|lia].
    destruct (Ascii.eqb y c); lia. }
  destruct (Z.eqb_spec (Advisor.rfind c raw) (-1)) as [F|F].
  - apply IH in F. destruct (Ascii.eqb_spec x c) as [E|E].
    + split; [discriminate|]. intros H. exfalso. apply H. now left.
    + split; [|reflexivity]. intros _ [H|H]; contradiction.
  - split; [lia|]. intros H. exfalso. apply F, IH. tauto.
Qed.

Lemma rfind_app (c : ascii) (pre post : Advisor.text) :
  ~ In c post ->
  Advisor.rfind c (pre ++ c :: post) = Z.of_nat (length pre).
Proof.
  intros H. apply rfind_absent in H.
  induction pre as [|x pre IH]; simpl.
  - now rewrite H, Ascii.eqb_refl.
  - rewrite IH. destruct (Z.eqb_spec (Z.of_nat (length pre)) (-1)); lia.
Qed.

Lemma find_split (c : ascii) (raw : Advisor.text) :
  Advisor.find c raw <> (-1)%Z ->
  exists pre rest,
    raw = pre ++ c :: rest
    /\ Advisor.find c raw = Z.of_nat (length pre)
    /\ ~ In c pre.
Proof.
  induction raw as [|x raw IH]; simpl; [congruence|].
  destruct (Ascii.eqb_spec x c) as [E|E].
  - intros _. exists [], raw. subst x. simpl. tauto.
  - destruct (Z.eqb_spec (Advisor.find c raw) (-1)) as [F|F]; [congruence|].
    intros _. destruct (IH F) as (pre & rest & -> & L & N).
    exists (x :: pre), rest. split; [reflexivity|]. split.
    + rewrite L. simpl length. lia.
    + intros [A|A]; [congruence|contradiction].
Qed.

Lemma rfind_split (c : ascii) (raw : Advisor.text) :
  Advisor.rfind c raw <> (-1)%Z ->
  exists pre post,
    raw = pre ++ c :: post
    /\ Advisor.rfind c raw = Z.of_nat (length pre)
    /\ ~ In c post.
Proof.
  induction raw as [|x raw IH]; simpl; [congruence|].
  destruct (Z.eqb_spec (Advisor.rfind c raw) (-1)) as [F|F].
  - destruct (Ascii.eqb_spec x c) as [E|E]; [|congruence].
    intros _. exists [], raw. subst x. simpl.
    split; [reflexivity|]. split; [reflexivity|]. now apply rfind_absent.
  - intros _. destruct (IH F) as (pre & post & -> & L & N).
    exists (x :: pre), post. split; [reflexivity|]. split; [|exact N].
    rewrite L. simpl length. lia.
Qed.

Lemma slice_middle (pre body post : Advisor.text) (x y : ascii) :
  Advisor.slice (pre ++ x :: body ++ y :: post)
                (Z.of_nat (length pre))
                (Z.of_nat (length (pre ++ x :: body)) + 1)
  = x :: body ++ [y].
Proof.
  unfold Advisor.slice.
  rewrite Nat2Z.id, skipn_app, skipn_all, Nat.sub_diag. cbn [skipn app].
  rewrite length_app. cbn [length].
  replace (Z.to_nat (Z.of_nat (length pre + S (length body)) + 1
                     - Z.of_nat (length pre)))
    with (S (length body + 1)) by lia.
  cbn [firstn]. f_equal.
  rewrite firstn_app, firstn_all2 by lia.
  replace (length body + 1 - length body)%nat with 1%nat by lia.
  reflexivity.
Qed.

(** X15.  A JSON object inside chatter is cut out exactly: when the
    response is some text without ["{"], then ["{"], a body, ["}"], and
    some text without ["}"], what is handed to [json.loads] is the opening
    brace, the body and the closing brace. *)
Theorem extract_object (pre body post : Advisor.text) :
  ~ In "{"%char pre -> ~ In "}"%char post ->
  Advisor.extract (pre ++ "{"%char :: body ++ "}"%char :: post)
  = Some ("{"%char :: body ++ ["}"%char]).
Proof.
  intros Hpre Hpost. unfold Advisor.extract.
  rewrite find_app by exact Hpre.
  replace (pre ++ "{"%char :: body ++ "}"%char :: post)
    with ((pre ++ "{"%char :: body) ++ "}"%char :: post)
    by (now rewrite <- app_assoc).
  rewrite rfind_app by exact Hpost.
  destruct (Z.eqb_spec (Z.of_nat (length pre)) (-1)); [lia|].
  destruct (Z.eqb_spec (Z.of_nat (length (pre ++ "{"%char :: body))) (-1));
    [lia|].
  cbn [orb]. f_equal. rewrite <- app_assoc. apply slice_middle.
Qed.

Lemma extract_object_witness :
  ~ In "{"%char (list_ascii_of_string "Sure: ")
  /\ ~ In "}"%char (list_ascii_of_string " ok")
  /\ Advisor.extract
       (list_ascii_of_string "Sure: " ++
        "{"%char :: list_ascii_of_string "a" ++
        "}"%char :: list_ascii_of_string " ok")
     = Some ("{"%char :: list_ascii_of_string "a" ++ ["}"%char]).
Proof.
  assert (A : ~ In "{"%char (list_ascii_of_string "Sure: "))
    by (simpl; intuition discriminate).
  assert (B : ~ In "}"%char (list_ascii_of_string " ok"))
    by (simpl; intuition discriminate).
  split; [exact A|]. split; [exact B|].
  exact (extract_object _ _ _ A B).
Defined.

(** ** The text handed to [json.loads] *)

Lemma app_same_length {A : Type} (p0 p1 r0 r1 : list A) :
  length p0 = length p1 -> p0 ++ r0 = p1 ++ r1 -> p0 = p1 /\ r0 = r1.
Proof.
  revert p1. induction p0 as [|x p0 IH]; intros [|y p1] L E;
    simpl in *; try discriminate; [tauto|].
  injection E as -> E. destruct (IH p1 ltac:(lia) E) as (-> & ->). tauto.
Qed.

Lemma app_longer {A : Type} (p0 p1 r0 q1 : list A) (x y : A) :
  (length p0 < length p1)%nat ->
  p0 ++ x :: r0 = p1 ++ y :: q1 ->
  exists body, p1 = p0 ++ x :: body /\ r0 = body ++ y :: q1.
Proof.
  revert p1. induction p0 as [|z p0 IH]; intros [|w p1] L E;
    simpl in *; try lia.
  - injection E as -> E. exists p1. tauto.
  - injection E as -> E. destruct (IH p1 ltac:(lia) E) as (body & -> & ->).
    exists body. tauto.
Qed.

(** X16.  Whatever is handed to [json.loads] is a part of the response, and
    it is either empty (the last ["}"] stands before the first ["{"]) or
    starts with ["{"] and ends with ["}"]. *)
Theorem extract_shape (raw t : Advisor.text) :
  Advisor.extract raw = Some t ->
  (exists pre post, raw = pre ++ t ++ post)
  /\ (((Advisor.rfind "}"%char raw < Advisor.find "{"%char raw)%Z /\ t = [])
      \/ ((Advisor.find "{"%char raw < Advisor.rfind "}"%char raw)%Z
          /\ exists body, t = "{"%char :: body ++ ["}"%char])).
Proof.
  unfold Advisor.extract.
  destruct (Z.eqb_spec (Advisor.find "{"%char raw) (-1)) as [F|F];
    [discriminate|].
  destruct (Z.eqb_spec (Advisor.rfind "}"%char raw) (-1)) as [G|G];
    [discriminate|].
  cbn [orb]. intros E. injection E as <-.
  split.
  - unfold Advisor.slice.
    set (n := Z.to_nat _). set (k := Z.to_nat _).
    exists (firstn k raw), (skipn n (skipn k raw)).
    now rewrite !firstn_skipn.
  - destruct (find_split _ _ F) as (p0 & r0 & E0 & L0 & N0).
    destruct (rfind_split _ _ G) as (p1 & q1 & E1 & L1 & N1).
    rewrite L0, L1.
    destruct (Nat.lt_trichotomy (length p1) (length p0)) as [H|[H|H]].
    + left. split; [lia|]. unfold Advisor.slice.
      replace (Z.to_nat (Z.of_nat (length p1) + 1 - Z.of_nat (length p0)))
        with 0%nat by lia.
      reflexivity.
    + exfalso. rewrite E0 in E1.
      destruct (app_same_length _ _ _ _ (eq_sym H) E1) as (_ & A).
      discriminate A.
    + right. split; [lia|]. rewrite E0 in E1.
      destruct (app_longer _ _ _ _ _ _ H E1) as (body & -> & ->).
      exists body. rewrite E0. apply slice_middle.
Qed.

Lemma extract_shape_witness :
  Advisor.extract (list_ascii_of_string "} {") = Some []
  /\ (Advisor.rfind "}"%char (list_ascii_of_string "} {")
      < Advisor.find "{"%char (list_ascii_of_string "} {"))%Z.
Proof.
  assert (E : Advisor.extract (list_ascii_of_string "} {") = Some [])
    by reflexivity.
  split; [exact E|].
  destruct (extract_shape _ _ E) as (_ & [(H & _)|(_ & body & B)]);
    [exact H|discriminate B].
Defined.

(** ** The recommendation *)

(** X17.  When the advisory call returns the fallback and when it returns a
    parsed object.  It is the fallback when the exchange failed, when the
    reply has no ["response"], when the response lacks ["{"] or ["}"], and
    when [json.loads] rejects the text cut out; it is a parsed object
    exactly when the response has both braces and [json.loads] accepts the
    text between the first ["{"] and the last ["}"], and then it is that
    object as it is: its keys are not looked at. *)
Theorem advice_cases (J : Type) (loads : Advisor.text -> option J)
    (r : Advisor.reply) :
  (r = Advisor.Failed \/ r = Advisor.Body None ->
   Advisor.ai_alpha_recommendation J loads r = Advisor.Fallback)
  /\ (forall raw,
         r = Advisor.Body (Some raw) ->
         ~ In "{"%char raw \/ ~ In "}"%char raw ->
         Advisor.ai_alpha_recommendation J loads r = Advisor.Fallback)
  /\ (forall raw t,
         r = Advisor.Body (Some raw) ->
         Advisor.extract raw = Some t -> loads t = None ->
         Advisor.ai_alpha_recommendation J loads r = Advisor.Fallback)
  /\ (forall j,
         Advisor.ai_alpha_recommendation J loads r = Advisor.Parsed j
         <-> exists raw t,
               r = Advisor.Body (Some raw)
               /\ In "{"%char raw /\ In "}"%char raw
               /\ Advisor.extract raw = Some t
               /\ loads t = Some j).
Proof.
  split; [|split; [|split]].
  - intros [->| ->]; reflexivity.
  - intros raw -> H. unfold Advisor.ai_alpha_recommendation, Advisor.extract.
    destruct H as [H|H].
    + apply find_absent in H. now rewrite H.
    + apply rfind_absent in H. rewrite H.
      now rewrite orb_true_r.
  - intros raw t -> E L. unfold Advisor.ai_alpha_recommendation.
    now rewrite E, L.
  - intros j. split.
    + destruct r as [|[raw|]]; try discriminate.
      unfold Advisor.ai_alpha_recommendation.
      destruct (Advisor.extract raw) as [t|] eqn:E; [|discriminate].
      destruct (loads t) as [j'|] eqn:L; [|discriminate].
      intros P. injection P as <-. exists raw, t.
      assert (B : In "{"%char raw /\ In "}"%char raw).
      { unfold Advisor.extract in E.
        destruct (Z.eqb_spec (Advisor.find "{"%char raw) (-1)) as [F|F];
          [discriminate|].
        destruct (Z.eqb_spec (Advisor.rfind "}"%char raw) (-1)) as [G|G];
          [discriminate|].
        split.
        - destruct (in_dec ascii_dec "{"%char raw) as [I|I]; [exact I|].
          apply find_absent in I. contradiction.
        - destruct (in_dec ascii_dec "}"%char raw) as [I|I]; [exact I|].
          apply rfind_absent in I. contradiction. }
      tauto.
    + intros (raw & t & -> & _ & _ & E & L).
      unfold Advisor.ai_alpha_recommendation. now rewrite E, L.
Qed.

Lemma advice_cases_witness :
  ~ In "{"%char (list_ascii_of_string "HOLD")
  /\ Advisor.ai_alpha_recommendation nat (fun _ => Some 0%nat)
       (Advisor.Body (Some (list_ascii_of_string "HOLD")))
     = Advisor.Fallback.
Proof.
  assert (A : ~ In "{"%char (list_ascii_of_string "HOLD"))
    by (simpl; intuition discriminate).
  split; [exact A|].
  destruct (advice_cases nat (fun _ => Some 0%nat)
              (Advisor.Body (Some (list_ascii_of_string "HOLD"))))
    as (_ & H & _).
  apply (H _ eq_refl). now left.
Defined.

(** * Cleaning the uploaded rows *)

(** ** Canonical items *)

Lemma canonical_item_map (t : list ascii) :
  App.canonical_item t = map canonical_char t.
Proof.
  unfold App.canonical_item, App.replace_char. now rewrite !map_map.
Qed.

Lemma canonical_char_laws (c : ascii) :
  canonical_char (canonical_char c) = canonical_char c
  /\ canonical_char c <> " "%char
  /\ canonical_char c <> "-"%char
  /\ App.lower_char (canonical_char c) = canonical_char c.
Proof.
  destruct c as [[] [] [] [] [] [] [] []];
    (split; [reflexivity|split; [discriminate|split;
                                  [discriminate|reflexivity]]]).
Qed.

(** X18.  [canonical_item] keeps the length of the item, leaves no space,
    no hyphen and no character that [lower] would change, and applying it
    twice is the same as applying it once. *)
Theorem canonical_item_laws (t : list ascii) :
  length (App.canonical_item t) = length t
  /\ App.canonical_item (App.canonical_item t) = App.canonical_item t
  /\ Forall (fun c => c <> " "%char /\ c <> "-"%char
                      /\ App.lower_char c = c)
            (App.canonical_item t).
Proof.
  rewrite !canonical_item_map. split; [apply length_map|]. split.
  - rewrite map_map. apply map_ext. intros c.
    apply (canonical_char_laws c).
  - apply Forall_forall. intros c Hc. apply in_map_iff in Hc.
    destruct Hc as (c0 & <- & _).
    destruct (canonical_char_laws c0) as (_ & A & B & C). tauto.
Qed.

(** Items that differ in case, spaces and hyphens only get one canonical
    item. *)
Example canonical_item_collision :
  App.canonical_item (list_ascii_of_string "Total Assets")
  = App.canonical_item (list_ascii_of_string "total-assets").
Proof. reflexivity. Qed.

(** ** Duplicates *)

Lemma key_eqb_eq (k1 k2 : list ascii * list ascii) :
  App.key_eqb k1 k2 = true <-> k1 = k2.
Proof.
  unfold App.key_eqb. destruct k1 as [y1 i1], k2 as [y2 i2]. simpl.
  destruct (list_eq_dec ascii_dec y1 y2);
    destruct (list_eq_dec ascii_dec i1 i2);
    split; intros H; try discriminate; try congruence.
Qed.

Lemma seen_In (k : list ascii * list ascii)
    (seen : list (list ascii * list ascii)) :
  existsb (App.key_eqb k) seen = true <-> In k seen.
Proof.
  rewrite existsb_exists. split.
  - intros (k' & Hin & E). apply key_eqb_eq in E. now subst.
  - intros H. exists k. split; [exact H|]. now apply key_eqb_eq.
Qed.

Lemma drop_from_cons (seen : list (list ascii * list ascii))
    (e : App.entry) (rows : list App.entry) :
  drop_from seen (e :: rows)
  = if existsb (App.key_eqb (App.key e)) seen
    then drop_from (App.key e :: seen) rows
    else e :: drop_from (App.key e :: seen) rows.
Proof.
  unfold drop_from. cbn [App.duplicated_from combine filter snd].
  destruct (existsb (App.key_eqb (App.key e)) seen); reflexivity.
Qed.

Lemma drop_from_count (seen : list (list ascii * list ascii))
    (rows : list App.entry) :
  (length (filter (fun d => d) (App.duplicated_from seen rows))
   + length (drop_from seen rows) = length rows)%nat.
Proof.
  revert seen. induction rows as [|e rows IH]; intros seen; [reflexivity|].
  rewrite drop_from_cons. cbn [App.duplicated_from filter length].
  specialize (IH (App.key e :: seen)).
  destruct (existsb (App.key_eqb (App.key e)) seen); simpl; lia.
Qed.

Lemma drop_from_keys (seen : list (list ascii * list ascii))
    (rows : list App.entry) (k : list ascii * list ascii) :
  In k (map App.key (drop_from seen rows))
  <-> In k (map App.key rows) /\ ~ In k seen.
Proof.
  revert seen. induction rows as [|e rows IH]; intros seen;
    [simpl; tauto|].
  rewrite drop_from_cons.
  destruct (existsb (App.key_eqb (App.key e)) seen) eqn:E.
  - apply seen_In in E. rewrite IH. simpl.
    split; [intros (A & B); tauto|].
    intros ([A|A] & B); [subst; contradiction|].
    split; [exact A|]. intros [C|C]; [subst; contradiction|contradiction].
  - assert (N : ~ In (App.key e) seen).
    { intros A. apply seen_In in A. congruence. }
    simpl. rewrite IH. simpl.
    split.
    + intros [A|(A & B)]; [subst; tauto|tauto].
    + intros ([A|A] & B); [now left|].
      destruct (list_eq_dec ascii_dec (fst (App.key e)) (fst k)) as [F|F];
        destruct (list_eq_dec ascii_dec (snd (App.key e)) (snd k)) as [G|G];
        try (right; split; [exact A|];
             intros [C|C]; [subst; congruence|contradiction]).
      left. destruct (App.key e), k. simpl in *. congruence.
Qed.

Lemma drop_from_NoDup (seen : list (list ascii * list ascii))
    (rows : list App.entry) :
  NoDup (map App.key (drop_from seen rows)).
Proof.
  revert seen. induction rows as [|e rows IH]; intros seen;
    [constructor|].
  rewrite drop_from_cons.
  destruct (existsb (App.key_eqb (App.key e)) seen); [apply IH|].
  simpl. constructor; [|apply IH].
  rewrite drop_from_keys. simpl. tauto.
Qed.

Lemma drop_from_first (seen : list (list ascii * list ascii))
    (rows : list App.entry) (k : list ascii * list ascii) :
  ~ In k seen ->
  find (fun e => App.key_eqb (App.key e) k) (drop_from seen rows)
  = find (fun e => App.key_eqb (App.key e) k) rows.
Proof.
  revert seen. induction rows as [|e rows IH]; intros seen Hk;
    [reflexivity|].
  rewrite drop_from_cons. cbn [find].
  destruct (App.key_eqb (App.key e) k) eqn:Ek.
  - apply key_eqb_eq in Ek. subst k.
    destruct (existsb (App.key_eqb (App.key e)) seen) eqn:E.
    + apply seen_In in E. contradiction.
    + cbn [find]. now rewrite (proj2 (key_eqb_eq _ _) eq_refl).
  - assert (Nk : ~ In k (App.key e :: seen)).
    { intros [A|A]; [|contradiction]. subst k.
      rewrite (proj2 (key_eqb_eq _ _) eq_refl) in Ek. discriminate. }
    destruct (existsb (App.key_eqb (App.key e)) seen).
    + now apply IH.
    + cbn [find]. rewrite Ek. now apply IH.
Qed.

Lemma drop_from_all (seen : list (list ascii * list ascii))
    (rows : list App.entry) :
  NoDup (map App.key rows) ->
  (forall k, In k (map App.key rows) -> ~ In k seen) ->
  drop_from seen rows = rows
  /\ filter (fun d => d) (App.duplicated_from seen rows) = [].
Proof.
  revert seen. induction rows as [|e rows IH]; intros seen Hn Hd;
    [split; reflexivity|].
  rewrite drop_from_cons. cbn [App.duplicated_from filter].
  simpl in Hn. inversion Hn as [|? ? He Hr]; subst.
  destruct (existsb (App.key_eqb (App.key e)) seen) eqn:E.
  - apply seen_In in E. exfalso. apply (Hd (App.key e)); [now left|exact E].
  - destruct (IH (App.key e :: seen) Hr) as (A & B).
    + intros k Hk [C|C]; [subst; contradiction|].
      apply (Hd k); [now right|exact C].
    + split; [now rewrite A|exact B].
Qed.

Lemma length_duplicated_from (seen : list (list ascii * list ascii))
    (rows : list App.entry) :
  length (App.duplicated_from seen rows) = length rows.
Proof.
  revert seen. induction rows as [|e rows IH]; intros seen; simpl; congruence.
Qed.

(** X19.  Dropping duplicates.  The number of rows marked as duplicates
    plus the number of rows kept is the number of rows; the rows kept have
    pairwise different (year, item) keys, the same keys as before, and for
    each key the row kept is the first row with that key. *)
Theorem drop_duplicates_laws (rows : list App.entry) :
  (App.dup_count rows + length (App.drop_duplicates rows) = length rows)%nat
  /\ NoDup (map App.key (App.drop_duplicates rows))
  /\ (forall k, In k (map App.key (App.drop_duplicates rows))
                <-> In k (map App.key rows))
  /\ (forall k,
         find (fun e => App.key_eqb (App.key e) k) (App.drop_duplicates rows)
         = find (fun e => App.key_eqb (App.key e) k) rows).
Proof.
  change (App.drop_duplicates rows) with (drop_from [] rows).
  split; [apply (drop_from_count [] rows)|].
  split; [apply drop_from_NoDup|]. split.
  - intros k. rewrite drop_from_keys. simpl. tauto.
  - intros k. apply drop_from_first. simpl. tauto.
Qed.

(** X20.  Step 1 of the confirmation always leaves the rows without their
    duplicates, whether or not the count triggers the drop; a table without
    duplicate keys is left as it is, and running the step twice changes
    nothing more. *)
Theorem confirm_duplicates_laws (rows : list App.entry) :
  App.confirm_duplicates rows = App.drop_duplicates rows
  /\ (NoDup (map App.key rows) -> App.confirm_duplicates rows = rows)
  /\ App.confirm_duplicates (App.confirm_duplicates rows)
     = App.confirm_duplicates rows.
Proof.
  assert (A : forall l, App.confirm_duplicates l = App.drop_duplicates l).
  { intros l. unfold App.confirm_duplicates.
    destruct (Nat.ltb_spec 0 (App.dup_count l)) as [H|H]; [reflexivity|].
    pose proof (drop_from_count [] l) as C.
    change (drop_from [] l) with (App.drop_duplicates l) in C.
    unfold App.dup_count, App.duplicated in H.
    assert (L : length (App.drop_duplicates l) = length l) by lia.
    clear C H. unfold App.drop_duplicates in *.
    rewrite length_map in L.
    set (c := combine l (App.duplicated l)) in *.
    assert (Lc : length c = length l).
    { unfold c, App.duplicated.
      rewrite length_combine, length_duplicated_from. lia. }
    assert (F : filter (fun ed => negb (snd ed)) c = c).
    { assert (G : forall (X : Type) (f : X -> bool) (x : list X),
                 length (filter f x) = length x -> filter f x = x).
      { intros X f x. induction x as [|a x IH]; [reflexivity|].
        simpl. pose proof (filter_length_le f x).
        destruct (f a); simpl; intros E;
          [f_equal; apply IH; lia|exfalso; lia]. }
      apply G. lia. }
    rewrite F. unfold c.
    assert (M : forall (l1 : list App.entry) (l2 : list bool),
               length l2 = length l1 -> map fst (combine l1 l2) = l1).
    { induction l1 as [|a l1 IH]; intros [|b l2] E; simpl in *;
        try discriminate; [reflexivity|]. f_equal. apply IH. lia. }
    symmetry. apply M. apply length_duplicated_from. }
  split; [apply A|]. split.
  - intros Hn. rewrite A.
    apply (drop_from_all [] rows Hn). intros k _ [].
  - rewrite !A.
    apply (drop_from_all [] (App.drop_duplicates rows)).
    + apply (drop_from_NoDup [] rows).
    + intros k _ [].
Qed.

Lemma confirm_duplicates_laws_witness :
  NoDup (map App.key three_entries)
  /\ App.confirm_duplicates three_entries = three_entries
  /\ App.confirm_duplicates repeated_entries
     = three_entries.
Proof.
  assert (N : NoDup (map App.key three_entries)).
  { repeat constructor; simpl; intuition discriminate. }
  split; [exact N|].
  destruct (confirm_duplicates_laws three_entries) as (_ & H & _).
  split; [exact (H N)|].
  destruct (confirm_duplicates_laws repeated_entries) as (E & _).
  rewrite E. reflexivity.
Defined.

(** * The table shown by the application *)





Lemma rolling_zscore_shape_witness :
  nth_error (values (rolling_zscore Sample.late_gap_3y)) 2 = Some None
  /\ (1 <= 2)%nat
  /\ (2 <= count (firstn 3 (values Sample.late_gap_3y)))%nat.
Proof.
  assert (E : nth_error (values (rolling_zscore Sample.late_gap_3y)) 2
              = Some None).
  { rewrite values_rolling_zscore.
    rewrite zscores_nth_error by (simpl; lia).
    f_equal. apply zscore_window_None.
    split; [reflexivity|]. split; [unfold count; simpl; lia|].
    rewrite std_sample_stddev by (unfold count; simpl; lia).
    intros A. injection A as A. now apply sample_stddev_1_2. }
  split; [exact E|].
  destruct (rolling_zscore_shape Sample.late_gap_3y) as (_ & _ & H).
  exact (H 2%nat E).
Defined.
